(** * electrum/jsonrpc.py: the authenticating JSON-RPC servers

    A shallow embedding of [electrum/jsonrpc.py] and the properties of its
    authentication check.

    Conventions.
    - A Python [str] is a [string]; a non-ASCII code point is held as its
      UTF-8 bytes, so that splitting at an ASCII separator and comparing for
      equality agree with Python's.
    - A Python [bytes] is a [list byte].
    - Code with effects lives in the monad [M]: it records the calls it
      makes, in order, and ends in a value or in a raised exception. *)

From Stdlib.Strings Require Import String Ascii Byte.
From Stdlib Require Import List ZArith NArith Bool Lia.
From stdpp Require Import base gmap strings list pretty.

Open Scope string_scope.
Open Scope list_scope.

Definition str : Type := string.
Definition bytes : Type := list byte.

(** ** Python's builtin string operations used by the module *)

Module PyStr.

(** [s.partition(sep)] for a one-character separator: the text before the
    first [sep], the separator found, and the text after it; when [sep]
    does not occur, [(s, '', '')]. *)
Fixpoint partition (s : str) (sep : ascii) : str * str * str :=
  match s with
  | EmptyString => ("", "", "")
  | String c s' =>
      if Ascii.eqb c sep then ("", String sep "", s')
      else let '(before, found, after) := partition s' sep in
           (String c before, found, after)
  end.

Definition of_codes (l : list nat) : str :=
  string_of_list_ascii (map ascii_of_nat l).

(** The code points for which [str.isspace] holds, in UTF-8:
    U+0009..U+000D, U+001C..U+0020, U+0085, U+00A0, U+1680,
    U+2000..U+200A, U+2028, U+2029, U+202F, U+205F, U+3000. *)
Definition whitespace : list str :=
  map (fun n => of_codes [n]) [9; 10; 11; 12; 13; 28; 29; 30; 31; 32]
  ++ [of_codes [194; 133]; of_codes [194; 160]; of_codes [225; 154; 128]]
  ++ map (fun n => of_codes [226; 128; n])
       [128; 129; 130; 131; 132; 133; 134; 135; 136; 137; 138; 168; 169; 175]
  ++ [of_codes [226; 129; 159]; of_codes [227; 128; 128]].

Fixpoint drop_prefix (p s : str) : option str :=
  match p, s with
  | EmptyString, _ => Some s
  | String a p', String b s' => if Ascii.eqb a b then drop_prefix p' s' else None
  | String _ _, EmptyString => None
  end.

Fixpoint drop_any_prefix (ps : list str) (s : str) : option str :=
  match ps with
  | [] => None
  | p :: ps' =>
      match drop_prefix p s with
      | Some rest => Some rest
      | None => drop_any_prefix ps' s
      end
  end.

Fixpoint lstrip_from (ws : list str) (fuel : nat) (s : str) : str :=
  match fuel with
  | O => s
  | S fuel' =>
      match drop_any_prefix ws s with
      | Some rest => lstrip_from ws fuel' rest
      | None => s
      end
  end.

Definition reverse (s : str) : str :=
  string_of_list_ascii (rev (list_ascii_of_string s)).

Definition lstrip (s : str) : str := lstrip_from whitespace (String.length s) s.

Definition rstrip (s : str) : str :=
  reverse (lstrip_from (map reverse whitespace) (String.length s) (reverse s)).

(** [s.strip()]: leading and trailing whitespace removed. *)
Definition strip (s : str) : str := rstrip (lstrip s).

Definition lower_ascii (c : ascii) : ascii :=
  let n := nat_of_ascii c in
  if (65 <=? n)%nat && (n <=? 90)%nat then ascii_of_nat (n + 32) else c.

(** [s.lower()] on the ASCII letters (the only ones whose lower case can
    occur in the header name ['authorization']). *)
Fixpoint lower (s : str) : str :=
  match s with
  | EmptyString => ""
  | String c s' => String (lower_ascii c) (lower s')
  end.

(** [needle in s]. *)
Fixpoint contains (s needle : str) : bool :=
  match drop_prefix needle s with
  | Some _ => true
  | None =>
      match s with
      | EmptyString => false
      | String _ s' => contains s' needle
      end
  end.

End PyStr.


(** ** Exceptions *)

(** An exception raised by library or helper code (the standard library's
    [binascii.Error], a codec error, ...): the name of its class and the text
    of its arguments as [repr] shows them. *)
Record foreign : Type := { exc_class : str; exc_args : str }.

(** The exception classes of lines 36-48, [Exception(msg)] of line 79, and
    whatever the callees raise. *)
Inductive exn : Type :=
| RPCAuthCredentialsInvalid
| RPCAuthCredentialsMissing
| RPCAuthUnsupportedType
| Exception (msg : str)
| Foreign (f : foreign).

(** [str(e)] for the classes that define [__str__] (lines 37-48). *)
Definition description (e : exn) : option str :=
  match e with
  | RPCAuthCredentialsInvalid => Some "Authentication failed (bad credentials)"
  | RPCAuthCredentialsMissing => Some "Authentication failed (missing credentials)"
  | RPCAuthUnsupportedType => Some "Authentication failed (only basic auth is supported)"
  | Exception _ | Foreign _ => None
  end.

(** [repr(e)]: none of the classes overrides [__repr__], so it is the class
    name followed by the constructor arguments. The three credential classes
    are raised without arguments. For [Exception(msg)] the rendering is exact
    when [msg] has no quote, backslash or control character, as ['undefined']. *)
Definition repr (e : exn) : str :=
  match e with
  | RPCAuthCredentialsInvalid => "RPCAuthCredentialsInvalid()"
  | RPCAuthCredentialsMissing => "RPCAuthCredentialsMissing()"
  | RPCAuthUnsupportedType => "RPCAuthUnsupportedType()"
  | Exception msg => "Exception('" +:+ msg +:+ "')"
  | Foreign f => exc_class f +:+ "(" +:+ exc_args f +:+ ")"
  end.

(** The classes caught by the first [except] clause (lines 68-69). *)
Definition is_rpc_auth (e : exn) : bool :=
  match e with
  | RPCAuthCredentialsInvalid | RPCAuthCredentialsMissing | RPCAuthUnsupportedType => true
  | _ => false
  end.

(** ** Effects: a trace of calls, and a value or a raised exception *)

Inductive event : Type :=
| Get (name : str)                     (* headers.get(name, None) *)
| Partition (s : str) (sep : ascii)    (* s.partition(sep) *)
| ToBytes (s enc : str)                (* util.to_bytes(s, enc) *)
| B64decode (b : bytes)                (* b64decode(b) *)
| ToString (b : bytes) (enc : str)     (* util.to_string(b, enc) *)
| ConstantTimeCompare (a b : str)      (* util.constant_time_compare(a, b) *)
| Sleep (ms : N)                       (* time.sleep(ms / 1000) *)
| Authenticate                         (* self.authenticate(myself.headers) *)
| LoggerException (msg : str)          (* self.logger.exception(msg) *)
| SendError (code : Z) (message : str). (* myself.send_error(code, message) *)

Definition result (A : Type) : Type := exn + A.
Definition M (A : Type) : Type := list event * result A.

Definition ret {A} (a : A) : M A := ([], inr a).
Definition raise {A} (e : exn) : M A := ([], inl e).

Definition bind {A B} (m : M A) (k : A -> M B) : M B :=
  match m with
  | (t, inl e) => (t, inl e)
  | (t, inr a) => let (t', r) := k a in (t ++ t', r)
  end.

Notation "x <- c1 ;; c2" := (bind c1 (fun x => c2))
  (at level 100, c1 at next level, right associativity).
Notation "c1 ;;; c2" := (bind c1 (fun _ => c2))
  (at level 100, c2 at level 200, right associativity).

(** A call: the event is recorded, then the callee's result is the call's. *)
Definition call {A} (ev : event) (r : result A) : M A := ([ev], r).

(** [try: body except ... as e: handler e]. *)
Definition try_except {A} (body : M A) (handler : exn -> M A) : M A :=
  match body with
  | (t, inl e) => let (t', r) := handler e in (t ++ t', r)
  | (t, inr a) => (t, inr a)
  end.

(** [a and b]: [b] is evaluated only when [a] is true. *)
Definition and_ (a b : M bool) : M bool :=
  x <- a ;; if x then b else ret x.

Definition lift {A} (r : foreign + A) : result A :=
  match r with
  | inl f => inl (Foreign f)
  | inr a => inr a
  end.

(** ** The standard library's [base64] *)

Module base64.

Definition byte_of_N (n : N) : byte := byte_of_ascii (ascii_of_N n).

(** The value of a character of the base-64 alphabet; 64 for any other byte. *)
Definition table_a2b_base64 (c : byte) : N :=
  let n := Byte.to_N c in
  if (65 <=? n)%N && (n <=? 90)%N then (n - 65)%N
  else if (97 <=? n)%N && (n <=? 122)%N then (n - 97 + 26)%N
  else if (48 <=? n)%N && (n <=? 57)%N then (n - 48 + 52)%N
  else if (n =? 43)%N then 62%N
  else if (n =? 47)%N then 63%N
  else 64%N.

Definition Error (msg : str) : foreign :=
  {| exc_class := "Error"; exc_args := "'" +:+ msg +:+ "'" |}.

(** The loop of [binascii.a2b_base64] outside strict mode: bytes that are not
    in the alphabet are skipped, a complete pad sequence ends the input, and
    an incomplete last quad is an error. [out] is what has been decoded. *)
Fixpoint a2b_base64_loop (data : bytes) (quad_pos : nat) (leftchar : N)
    (pads : nat) (out : bytes) : foreign + bytes :=
  match data with
  | [] =>
      match quad_pos with
      | 0 => inr out
      | 1 => inl (Error ("Invalid base64-encoded string: number of data characters ("
                         +:+ pretty (length out / 3 * 4 + 1)
                         +:+ ") cannot be 1 more than a multiple of 4"))
      | _ => inl (Error "Incorrect padding")
      end
  | this_ch :: rest =>
      if (Byte.to_N this_ch =? 61)%N then
        if (2 <=? quad_pos)%nat then
          if (4 <=? quad_pos + S pads)%nat then inr out
          else a2b_base64_loop rest quad_pos leftchar (S pads) out
        else a2b_base64_loop rest quad_pos leftchar pads out
      else
        let d := table_a2b_base64 this_ch in
        if (64 <=? d)%N then a2b_base64_loop rest quad_pos leftchar pads out
        else
          match quad_pos with
          | 0 => a2b_base64_loop rest 1 d 0 out
          | 1 => a2b_base64_loop rest 2 (N.land d 15) 0
                   (out ++ [byte_of_N (N.lor (N.shiftl leftchar 2) (N.shiftr d 4))])
          | 2 => a2b_base64_loop rest 3 (N.land d 3) 0
                   (out ++ [byte_of_N (N.lor (N.shiftl leftchar 4) (N.shiftr d 2))])
          | _ => a2b_base64_loop rest 0 0%N 0
                   (out ++ [byte_of_N (N.lor (N.shiftl leftchar 6) d)])
          end
  end.

(** [b64decode(s)] with its default arguments (no alternative alphabet, no
    validation). *)
Definition b64decode (s : bytes) : foreign + bytes :=
  a2b_base64_loop s 0 0%N 0 [].

Definition table_b2a_base64 : str :=
  "ABCDEFGHIJKLMNOPQRSTUVWXYZabcdefghijklmnopqrstuvwxyz0123456789+/".

Definition b2a (n : N) : byte :=
  match String.get (N.to_nat n) table_b2a_base64 with
  | Some c => byte_of_ascii c
  | None => x00
  end.

(** [b64encode(s)]: three bytes become four characters, the last group is
    padded with ['=']. *)
Fixpoint b64encode (s : bytes) : bytes :=
  match s with
  | [] => []
  | a :: [] =>
      let a := Byte.to_N a in
      [b2a (N.shiftr a 2); b2a (N.shiftl (N.land a 3) 4); x3d; x3d]
  | a :: b :: [] =>
      let a := Byte.to_N a in
      let b := Byte.to_N b in
      [b2a (N.shiftr a 2); b2a (N.lor (N.shiftl (N.land a 3) 4) (N.shiftr b 4));
       b2a (N.shiftl (N.land b 15) 2); x3d]
  | a :: b :: c :: rest =>
      let a := Byte.to_N a in
      let b := Byte.to_N b in
      let c := Byte.to_N c in
      [b2a (N.shiftr a 2); b2a (N.lor (N.shiftl (N.land a 3) 4) (N.shiftr b 4));
       b2a (N.lor (N.shiftl (N.land b 15) 2) (N.shiftr c 6)); b2a (N.land c 63)]
      ++ b64encode rest
  end.

End base64.

(** ** [electrum.util]: the helpers the module calls *)

(** [util.to_bytes], [util.to_string] and [util.constant_time_compare] are
    called by [authenticate] (lines 102-106) and defined elsewhere: they are
    parameters of the development. The two conversions may raise. *)
Class Util : Type := {
  to_bytes : str -> str -> foreign + bytes;
  to_string : bytes -> str -> foreign + str;
  constant_time_compare : str -> str -> bool
}.

(** Modelled from the spec: [util.constant_time_compare] is not under src/;
    section 4.2 has it "compare two strings for exact equality". *)
Class ConstantTimeComparator (U : Util) : Prop :=
  constant_time_compare_eq : forall a b : str, constant_time_compare a b = true <-> a = b.

(** Whether a byte sequence is well-formed UTF-8 (no overlong form, no
    surrogate, nothing above U+10FFFF). *)
Fixpoint utf8_valid (b : list N) : bool :=
  let cont (x : N) := (128 <=? x)%N && (x <=? 191)%N in
  match b with
  | [] => true
  | b0 :: r0 =>
      if (b0 <? 128)%N then utf8_valid r0
      else
        match r0 with
        | [] => false
        | b1 :: r1 =>
            if (194 <=? b0)%N && (b0 <=? 223)%N then cont b1 && utf8_valid r1
            else
              match r1 with
              | [] => false
              | b2 :: r2 =>
                  if (224 <=? b0)%N && (b0 <=? 239)%N then
                    (if (b0 =? 224)%N then (160 <=? b1)%N && (b1 <=? 191)%N
                     else if (b0 =? 237)%N then (128 <=? b1)%N && (b1 <=? 159)%N
                     else cont b1)
                    && cont b2 && utf8_valid r2
                  else
                    match r2 with
                    | [] => false
                    | b3 :: r3 =>
                        (240 <=? b0)%N && (b0 <=? 244)%N
                        && (if (b0 =? 240)%N then (144 <=? b1)%N && (b1 <=? 191)%N
                            else if (b0 =? 244)%N then (128 <=? b1)%N && (b1 <=? 143)%N
                            else cont b1)
                        && cont b2 && cont b3 && utf8_valid r3
                    end
              end
        end
  end.

(** Modelled from the spec: [electrum/util.py] is not under src/. The
    comparator is exact equality (section 4.2); the conversions are the
    ['utf8'] codec named at the call sites: encoding a [str] gives its bytes,
    decoding accepts well-formed UTF-8 only. The arguments of the codec error
    (the encoding, the bytes, the offsets) are not rendered. *)
#[export] Instance electrum_util : Util := {|
  to_bytes s enc := inr (list_byte_of_string s);
  to_string b enc :=
    if utf8_valid (map Byte.to_N b) then inr (string_of_list_byte b)
    else inl {| exc_class := "UnicodeDecodeError"; exc_args := "'utf-8', ..." |};
  constant_time_compare a b := String.eqb a b
|}.

(** ** The request headers *)

Module HTTPMessage.

(** The header fields of one request, in the order received. *)
Definition t : Type := list (str * str).

(** [headers.get(name, None)]: the value of the first field whose name
    matches [name], letter case apart. *)
Fixpoint get (headers : t) (name : str) : option str :=
  match headers with
  | [] => None
  | (k, v) :: headers' =>
      if String.eqb (PyStr.lower k) (PyStr.lower name) then Some v
      else get headers' name
  end.

End HTTPMessage.

(** ** The calls [authenticate] makes, as computations in [M] *)

Definition headers_get (headers : HTTPMessage.t) (name : str) : M (option str) :=
  call (Get name) (inr (HTTPMessage.get headers name)).

Definition str_partition (s : str) (sep : ascii) : M (str * str * str) :=
  call (Partition s sep) (inr (PyStr.partition s sep)).

Definition util_to_bytes `{Util} (s enc : str) : M bytes :=
  call (ToBytes s enc) (lift (to_bytes s enc)).

Definition b64decode (b : bytes) : M bytes :=
  call (B64decode b) (lift (base64.b64decode b)).

Definition util_to_string `{Util} (b : bytes) (enc : str) : M str :=
  call (ToString b enc) (lift (to_string b enc)).

Definition util_constant_time_compare `{Util} (a b : str) : M bool :=
  call (ConstantTimeCompare a b) (inr (constant_time_compare a b)).

(** [time.sleep(seconds)], the duration held in milliseconds. *)
Definition time_sleep (ms : N) : M unit := call (Sleep ms) (inr tt).

Definition logger_exception (msg : str) : M unit := call (LoggerException msg) (inr tt).

(** [myself.send_error(code, message)]: the call is recorded. The message is
    taken to be one the status line can carry (Latin-1 text), as the [repr]
    of each exception this module raises is; for such a message the call
    returns. *)
Definition send_error (code : Z) (message : str) : M unit :=
  call (SendError code message) (inr tt).

(** ** The servers *)

(** [self.authenticate(headers)], the method each server class provides. *)
Class Authenticator (S : Type) : Type :=
  authenticate : S -> HTTPMessage.t -> M unit.

(** [AuthenticatedJSONRPCServer], the base class: no state of its own. *)
Inductive AuthenticatedJSONRPCServer : Type := mkAuthenticatedJSONRPCServer.

(** Lines 78-79. *)
#[export] Instance AuthenticatedJSONRPCServer_authenticate :
  Authenticator AuthenticatedJSONRPCServer :=
  fun self headers => raise (Exception "undefined").

(** [PasswordProtectedJSONRPCServer] (lines 84-87). *)
Record PasswordProtectedJSONRPCServer : Type := {
  rpc_user : str;
  rpc_password : str
}.

(** Lines 89-108. *)
#[export] Instance PasswordProtectedJSONRPCServer_authenticate `{Util} :
  Authenticator PasswordProtectedJSONRPCServer :=
  fun self headers =>
    if String.eqb (rpc_password self) "" then
      (* RPC authentication is disabled *)
      ret tt
    else
      auth_string <- headers_get headers "Authorization" ;;
      match auth_string with
      | None => raise RPCAuthCredentialsMissing
      | Some auth_string =>
          p <- str_partition auth_string " " ;;
          let '(basic, _, encoded) := p in
          if negb (String.eqb basic "Basic") then raise RPCAuthUnsupportedType
          else
            encoded <- util_to_bytes encoded "utf8" ;;
            decoded <- b64decode encoded ;;
            credentials <- util_to_string decoded "utf8" ;;
            p <- str_partition credentials ":" ;;
            let '(username, _, password) := p in
            ok <- and_ (util_constant_time_compare username (rpc_user self))
                       (util_constant_time_compare password (rpc_password self)) ;;
            if negb ok then
              time_sleep 50 ;;;
              raise RPCAuthCredentialsInvalid
            else ret tt
      end.

Section Accounts.

(** What [add_user] is given: any value. *)
Context {pubkey : Type}.

(** [AccountsJSONRPCServer]: [self.users], a dict from user id to public key
    (lines 114-115). *)
Record AccountsJSONRPCServer : Type := { users : gmap nat pubkey }.

(** A fresh server: [self.users = {}]. *)
Definition AccountsJSONRPCServer_init : AccountsJSONRPCServer := {| users := ∅ |}.

(** Lines 119-121. *)
#[export] Instance AccountsJSONRPCServer_authenticate :
  Authenticator AccountsJSONRPCServer :=
  fun self headers => ret tt.

(** Lines 123-126: the id returned and the server afterwards. *)
Definition add_user (self : AccountsJSONRPCServer) (pk : pubkey)
  : nat * AccountsJSONRPCServer :=
  let user_id := size (users self) in
  (user_id, {| users := <[user_id := pk]> (users self) |}).

(** Successive [add_user] calls: the ids returned, in order, and the server
    after the last call. *)
Fixpoint add_users (self : AccountsJSONRPCServer) (pks : list pubkey)
  : list nat * AccountsJSONRPCServer :=
  match pks with
  | [] => ([], self)
  | pk :: pks' =>
      let '(user_id, self') := add_user self pk in
      let '(ids, self'') := add_users self' pks' in
      (user_id :: ids, self'')
  end.

End Accounts.

Arguments AccountsJSONRPCServer : clear implicits.

(** ** The request handler *)

(** What [parse_request] reads of the handler [myself]: whether the inherited
    [SimpleJSONRPCRequestHandler.parse_request] accepted the request, and the
    [command] and [headers] it stored. What the inherited method does on its
    own account (it answers a request it refuses with a status of its own)
    is not recorded: the traces below hold the calls of lines 62-73. *)
Record VerifyingRequestHandler : Type := {
  SimpleJSONRPCRequestHandler_parse_request : bool;
  command : str;
  headers : HTTPMessage.t
}.

(** Lines 58-74. The trace holds the calls made; the value is what
    [parse_request] returns. *)
Definition parse_request {S : Type} `{Authenticator S} (self : S)
    (myself : VerifyingRequestHandler) : M bool :=
  if SimpleJSONRPCRequestHandler_parse_request myself then
    (* Do not authenticate OPTIONS-requests *)
    if String.eqb (PyStr.strip (command myself)) "OPTIONS" then ret true
    else
      try_except
        (call Authenticate (inr tt) ;;;
         authenticate self (headers myself) ;;;
         ret true)
        (fun e =>
           if is_rpc_auth e then
             send_error 401 (repr e) ;;;
             ret false
           else
             logger_exception "" ;;;
             send_error 500 (repr e) ;;;
             ret false)
  else ret false.

(** ** Reading a trace *)

Definition is_sleep (ev : event) : bool :=
  match ev with Sleep _ => true | _ => false end.

(** The comparator calls of a trace, in order. *)
Definition comparisons (t : list event) : list (str * str) :=
  flat_map (fun ev => match ev with ConstantTimeCompare a b => [(a, b)] | _ => [] end) t.

(** The header value [Basic base64(user:password)]. *)
Definition basic_auth (credentials : str) : str :=
  "Basic " +:+ string_of_list_byte (base64.b64encode (list_byte_of_string credentials)).

Definition alice : PasswordProtectedJSONRPCServer :=
  {| rpc_user := "alice"; rpc_password := "secret" |}.

Definition post (h : HTTPMessage.t) : VerifyingRequestHandler :=
  {| SimpleJSONRPCRequestHandler_parse_request := true; command := "POST"; headers := h |}.

Definition options (h : HTTPMessage.t) : VerifyingRequestHandler :=
  {| SimpleJSONRPCRequestHandler_parse_request := true; command := "OPTIONS"; headers := h |}.

(** ** The extractor in the spec's words *)

(** [c in s]. *)
Fixpoint occurs (c : ascii) (s : str) : bool :=
  match s with
  | EmptyString => false
  | String a s' => Ascii.eqb a c || occurs c s'
  end.

(** The split of section 4.1: [s] cut at its first [c] into what stands
    before and what stands after; without any [c], all of [s] and the empty
    string. *)
Inductive split_first (c : ascii) (s : str) : str -> str -> Prop :=
| split_at (before after : str) :
    s = before +:+ String c after -> occurs c before = false ->
    split_first c s before after
| split_none :
    occurs c s = false -> split_first c s s "".

(** Lines 94-103 ran to their end on [headers]: there is an Authorization
    value, its scheme token is [Basic], and its remainder decodes to the
    text [credentials]. *)
Definition decodes_to `{Util} (headers : HTTPMessage.t) (credentials : str) : Prop :=
  exists (auth_string sep encoded : str) (b decoded : bytes),
    HTTPMessage.get headers "Authorization" = Some auth_string /\
    PyStr.partition auth_string " " = ("Basic", sep, encoded) /\
    to_bytes encoded "utf8" = inr b /\
    base64.b64decode b = inr decoded /\
    to_string decoded "utf8" = inr credentials.

(** The calls of lines 94-104 on such headers. *)
Definition extraction_trace (auth_string encoded : str) (b decoded : bytes)
    (credentials : str) : list event :=
  [Get "Authorization"; Partition auth_string " "; ToBytes encoded "utf8";
   B64decode b; ToString decoded "utf8"; Partition credentials ":"].

(** The second comparison of section 4.3, in the spec's words: whatever the
    first comparison gave, both the user name and the password have been
    handed to the comparator by the time [authenticate] ends. *)
Definition both_compared `{Util} (self : PasswordProtectedJSONRPCServer)
    (headers : HTTPMessage.t) : Prop :=
  forall credentials username password : str,
    decodes_to headers credentials ->
    split_first ":" credentials username password ->
    In (username, rpc_user self) (comparisons (fst (authenticate self headers)))
    /\ In (password, rpc_password self) (comparisons (fst (authenticate self headers))).

Definition no_sleep (t : list event) : bool :=
  forallb (fun ev => negb (is_sleep ev)) t.

(** ** The paths through [authenticate] *)

(** Every way lines 89-108 can end: the calls made and the outcome, with the
    conditions the code tested on the way. *)
Inductive authenticate_path `{Util} (self : PasswordProtectedJSONRPCServer)
    (headers : HTTPMessage.t) : M unit -> Prop :=
| path_disabled :
    rpc_password self = "" ->
    authenticate_path self headers ([], inr tt)
| path_missing :
    rpc_password self <> "" ->
    HTTPMessage.get headers "Authorization" = None ->
    authenticate_path self headers
      ([Get "Authorization"], inl RPCAuthCredentialsMissing)
| path_unsupported (auth_string basic sep encoded : str) :
    rpc_password self <> "" ->
    HTTPMessage.get headers "Authorization" = Some auth_string ->
    PyStr.partition auth_string " " = (basic, sep, encoded) ->
    basic <> "Basic" ->
    authenticate_path self headers
      ([Get "Authorization"; Partition auth_string " "], inl RPCAuthUnsupportedType)
| path_to_bytes (auth_string sep encoded : str) (f : foreign) :
    rpc_password self <> "" ->
    HTTPMessage.get headers "Authorization" = Some auth_string ->
    PyStr.partition auth_string " " = ("Basic", sep, encoded) ->
    to_bytes encoded "utf8" = inl f ->
    authenticate_path self headers
      ([Get "Authorization"; Partition auth_string " "; ToBytes encoded "utf8"],
       inl (Foreign f))
| path_b64decode (auth_string sep encoded : str) (b : bytes) (f : foreign) :
    rpc_password self <> "" ->
    HTTPMessage.get headers "Authorization" = Some auth_string ->
    PyStr.partition auth_string " " = ("Basic", sep, encoded) ->
    to_bytes encoded "utf8" = inr b ->
    base64.b64decode b = inl f ->
    authenticate_path self headers
      ([Get "Authorization"; Partition auth_string " "; ToBytes encoded "utf8";
        B64decode b],
       inl (Foreign f))
| path_to_string (auth_string sep encoded : str) (b decoded : bytes) (f : foreign) :
    rpc_password self <> "" ->
    HTTPMessage.get headers "Authorization" = Some auth_string ->
    PyStr.partition auth_string " " = ("Basic", sep, encoded) ->
    to_bytes encoded "utf8" = inr b ->
    base64.b64decode b = inr decoded ->
    to_string decoded "utf8" = inl f ->
    authenticate_path self headers
      ([Get "Authorization"; Partition auth_string " "; ToBytes encoded "utf8";
        B64decode b; ToString decoded "utf8"],
       inl (Foreign f))
| path_compared (auth_string sep encoded : str) (b decoded : bytes)
    (credentials username sep' password : str) :
    rpc_password self <> "" ->
    HTTPMessage.get headers "Authorization" = Some auth_string ->
    PyStr.partition auth_string " " = ("Basic", sep, encoded) ->
    to_bytes encoded "utf8" = inr b ->
    base64.b64decode b = inr decoded ->
    to_string decoded "utf8" = inr credentials ->
    PyStr.partition credentials ":" = (username, sep', password) ->
    authenticate_path self headers
      (extraction_trace auth_string encoded b decoded credentials
       ++ ConstantTimeCompare username (rpc_user self)
          :: (if constant_time_compare username (rpc_user self)
              then ConstantTimeCompare password (rpc_password self)
                   :: (if constant_time_compare password (rpc_password self)
                       then [] else [Sleep 50])
              else [Sleep 50]),
       if constant_time_compare username (rpc_user self)
          && constant_time_compare password (rpc_password self)
       then inr tt else inl RPCAuthCredentialsInvalid).

(** ** Reading what the handler did *)

(** The [send_error] calls of a trace, in order. *)
Definition errors_sent (t : list event) : list (Z * str) :=
  flat_map (fun ev => match ev with SendError c m => [(c, m)] | _ => [] end) t.

(** The [logger.exception] calls of a trace, in order. *)
Definition logged (t : list event) : list str :=
  flat_map (fun ev => match ev with LoggerException m => [m] | _ => [] end) t.

(** ** The registry's table *)

(** The ids in use are exactly 0, 1, ..., [len(self.users) - 1]. *)
Definition dense {pubkey : Type} (self : AccountsJSONRPCServer pubkey) : Prop :=
  forall i : nat, is_Some (users self !! i) <-> i < size (users self).

(** ** Bit arithmetic of base64, as a check on two byte values *)

(** For byte values [x] and [y]: the four six-bit groups cut from them are
    below 64, and putting the groups back together gives the bytes. *)
Definition quad_check (x y : N) : bool :=
  let d2 := N.lor (N.shiftl (N.land x 3) 4) (N.shiftr y 4) in
  let d3 := N.lor (N.shiftl (N.land x 15) 2) (N.shiftr y 6) in
  forallb (fun b : bool => b)
    [ (N.shiftr x 2 <? 64)%N; (d2 <? 64)%N; (d3 <? 64)%N; (N.land x 63 <? 64)%N;
      (N.shiftl (N.land x 3) 4 <? 64)%N; (N.shiftl (N.land x 15) 2 <? 64)%N;
      (N.lor (N.shiftl (N.shiftr x 2) 2) (N.shiftr d2 4) =? x)%N;
      (N.land d2 15 =? N.shiftr y 4)%N;
      (N.lor (N.shiftl (N.shiftr x 2) 2) (N.shiftr (N.shiftl (N.land x 3) 4) 4) =? x)%N;
      (N.lor (N.shiftl (N.shiftr x 4) 4) (N.shiftr d3 2) =? x)%N;
      (N.land d3 3 =? N.shiftr y 6)%N;
      (N.lor (N.shiftl (N.shiftr x 4) 4) (N.shiftr (N.shiftl (N.land x 15) 2) 2) =? x)%N;
      (N.lor (N.shiftl (N.shiftr x 6) 6) (N.land x 63) =? x)%N ].

(** ** Valid base64, in the spec's words *)

Definition in_alphabet (c : byte) : bool := (base64.table_a2b_base64 c <? 64)%N.

(** At most two pad characters taken off the end of a text given in
    reverse. *)
Definition strip_pad (reversed : bytes) : bytes :=
  match reversed with
  | x3d :: x3d :: body => body
  | x3d :: body => body
  | _ => reversed
  end.

(** Standard base64: groups of four characters of the alphabet, the last
    group padded with one or two [=]. *)
Definition is_base64 (b : bytes) : bool :=
  (length b mod 4 =? 0)%nat && forallb in_alphabet (strip_pad (rev b)).

(** C3 as the spec states it: whenever the scheme is [Basic] and the
    remainder is valid base64, the two fields either match, and the request
    is allowed, or differ, and it is rejected as [RPCAuthCredentialsInvalid]. *)
Definition valid_base64_is_checked `{Util} (self : PasswordProtectedJSONRPCServer)
    (headers : HTTPMessage.t) : Prop :=
  forall (auth_string sep encoded : str) (b : bytes),
    HTTPMessage.get headers "Authorization" = Some auth_string ->
    PyStr.partition auth_string " " = ("Basic", sep, encoded) ->
    to_bytes encoded "utf8" = inr b ->
    is_base64 b = true ->
    snd (authenticate self headers) = inr tt
    \/ snd (authenticate self headers) = inl RPCAuthCredentialsInvalid.

(** C6 as the spec states it: whenever the scheme is [Basic] and the
    remainder is not valid base64, [authenticate] raises an exception that
    is none of the three credential classes. *)
Definition invalid_base64_is_fault `{Util} (self : PasswordProtectedJSONRPCServer)
    (headers : HTTPMessage.t) : Prop :=
  forall (auth_string sep encoded : str) (b : bytes),
    HTTPMessage.get headers "Authorization" = Some auth_string ->
    PyStr.partition auth_string " " = ("Basic", sep, encoded) ->
    to_bytes encoded "utf8" = inr b ->
    is_base64 b = false ->
    exists e : exn, snd (authenticate self headers) = inl e /\ is_rpc_auth e = false.

(** * Properties *)

(** ** The monad *)

Lemma bind_ret_l {A B} (a : A) (k : A -> M B) : bind (ret a) k = k a.
Proof. unfold bind, ret. now destruct (k a). Qed.

Lemma bind_ret_r {A} (m : M A) : bind m ret = m.
Proof. destruct m as [t [e|a]]; cbn; [reflexivity | now rewrite app_nil_r]. Qed.

Lemma bind_assoc {A B C} (m : M A) (k : A -> M B) (k' : B -> M C) :
  bind (bind m k) k' = bind m (fun a => bind (k a) k').
Proof.
  destruct m as [t [e|a]]; cbn; [reflexivity|].
  destruct (k a) as [t1 [e|b]]; cbn; [reflexivity|].
  destruct (k' b) as [t2 r]. now rewrite app_assoc.
Qed.

(** An exception cuts the rest of the computation short. *)
Lemma bind_raise {A B} (e : exn) (k : A -> M B) : bind (raise e) k = raise e.
Proof. reflexivity. Qed.

(** ** Strings *)

Lemma partition_split_first (c : ascii) (s before found after : str) :
  PyStr.partition s c = (before, found, after) -> split_first c s before after.
Proof.
  revert before found after.
  induction s as [|a s IH]; intros before found after Hp; simpl in Hp.
  - inversion Hp; subst. now apply split_none.
  - destruct (Ascii.eqb a c) eqn:Hac.
    + inversion Hp; subst. apply Ascii.eqb_eq in Hac. subst a.
      now apply split_at.
    + destruct (PyStr.partition s c) as [[before' found'] after'] eqn:Hs.
      inversion Hp; subst.
      destruct (IH _ _ _ eq_refl) as [b' a' Heq Hocc | Hocc].
      * apply split_at; simpl; [now rewrite Heq | now rewrite Hac].
      * apply split_none. simpl. now rewrite Hac.
Qed.

Lemma split_first_partition (c : ascii) (s before after : str) :
  split_first c s before after ->
  exists found, PyStr.partition s c = (before, found, after).
Proof.
  intros [b a -> Hocc | Hocc].
  - exists (String c ""). induction b as [|x b IH]; simpl in *.
    + now rewrite Ascii.eqb_refl.
    + apply orb_false_iff in Hocc as [Hx Hb]. rewrite Hx, (IH Hb). reflexivity.
  - exists "". induction s as [|x s IH]; simpl in *; [reflexivity|].
    apply orb_false_iff in Hocc as [Hx Hs]. rewrite Hx, (IH Hs). reflexivity.
Qed.

(** The spec's split is a function of the text. *)
Lemma split_first_unique (c : ascii) (s b1 a1 b2 a2 : str) :
  split_first c s b1 a1 -> split_first c s b2 a2 -> b1 = b2 /\ a1 = a2.
Proof.
  intros H1 H2.
  destruct (split_first_partition _ _ _ _ H1) as [f1 E1].
  destruct (split_first_partition _ _ _ _ H2) as [f2 E2].
  rewrite E1 in E2. now inversion E2.
Qed.

Example partition_found :
  PyStr.partition "Basic dXNlcg==" " " = ("Basic", " ", "dXNlcg==").
Proof. reflexivity. Qed.

Example partition_first_only : PyStr.partition "a:b:c" ":" = ("a", ":", "b:c").
Proof. reflexivity. Qed.

Example partition_absent : PyStr.partition "Basic" " " = ("Basic", "", "").
Proof. reflexivity. Qed.

Example strip_command :
  PyStr.strip (" OPTIONS" +:+ PyStr.of_codes [9; 194; 160]) = "OPTIONS".
Proof. reflexivity. Qed.

Example get_any_case :
  HTTPMessage.get [("Host", "localhost"); ("authorization", "Basic eA==")] "Authorization"
  = Some "Basic eA==".
Proof. reflexivity. Qed.

(** ** base64 and the helpers *)

Example b64decode_alice :
  base64.b64decode (list_byte_of_string "YWxpY2U6c2VjcmV0")
  = inr (list_byte_of_string "alice:secret").
Proof. reflexivity. Qed.

Example b64decode_skips_foreign_bytes :
  base64.b64decode (list_byte_of_string "YWxp Y2U6!c2Vj~cmV0")
  = inr (list_byte_of_string "alice:secret").
Proof. reflexivity. Qed.

Example b64decode_incorrect_padding :
  base64.b64decode (list_byte_of_string "/w=") = inl (base64.Error "Incorrect padding").
Proof. reflexivity. Qed.

Example b64encode_alice :
  basic_auth "alice:secret" = "Basic YWxpY2U6c2VjcmV0"
  /\ basic_auth "alice:wrong" = "Basic YWxpY2U6d3Jvbmc="
  /\ basic_auth "bob:secret" = "Basic Ym9iOnNlY3JldA==".
Proof. repeat split; reflexivity. Qed.

#[export] Instance electrum_util_comparator : ConstantTimeComparator electrum_util.
Proof. intros a b. apply String.eqb_eq. Qed.

(** ** [PasswordProtectedJSONRPCServer.authenticate] *)

Ltac run :=
  unfold authenticate, PasswordProtectedJSONRPCServer_authenticate,
    AuthenticatedJSONRPCServer_authenticate, and_,
    headers_get, str_partition, util_to_bytes, b64decode, util_to_string,
    util_constant_time_compare, time_sleep, logger_exception, send_error,
    call, raise, ret, bind, lift in *.

Lemma password_set (self : PasswordProtectedJSONRPCServer) :
  rpc_password self <> "" -> String.eqb (rpc_password self) "" = false.
Proof. intros H. now apply String.eqb_neq. Qed.

(** What [authenticate] does once lines 94-104 have produced a user name and
    a password: the calls made and the outcome. *)
Lemma authenticate_extracted `{Util} (self : PasswordProtectedJSONRPCServer)
    (headers : HTTPMessage.t) (auth_string sep encoded : str) (b decoded : bytes)
    (credentials username sep' password : str) :
  rpc_password self <> "" ->
  HTTPMessage.get headers "Authorization" = Some auth_string ->
  PyStr.partition auth_string " " = ("Basic", sep, encoded) ->
  to_bytes encoded "utf8" = inr b ->
  base64.b64decode b = inr decoded ->
  to_string decoded "utf8" = inr credentials ->
  PyStr.partition credentials ":" = (username, sep', password) ->
  authenticate self headers =
    (extraction_trace auth_string encoded b decoded credentials
     ++ ConstantTimeCompare username (rpc_user self)
        :: (if constant_time_compare username (rpc_user self)
            then ConstantTimeCompare password (rpc_password self)
                 :: (if constant_time_compare password (rpc_password self)
                     then [] else [Sleep 50])
            else [Sleep 50]),
     if constant_time_compare username (rpc_user self)
        && constant_time_compare password (rpc_password self)
     then inr tt else inl RPCAuthCredentialsInvalid).
Proof.
  intros Hpw Hget Hbasic Hbytes Hb64 Hstring Hcred.
  run. rewrite (password_set _ Hpw), Hget. cbn.
  rewrite Hbasic. cbn. rewrite Hbytes. cbn. rewrite Hb64. cbn.
  rewrite Hstring. cbn. rewrite Hcred. cbn.
  destruct (constant_time_compare username (rpc_user self)); cbn;
    [destruct (constant_time_compare password (rpc_password self))|]; reflexivity.
Qed.

(** C1. With the empty string as expected password, [authenticate] returns
    normally on every header mapping, and has made no call at all by then:
    no header lookup, no partition, no decoding. *)
Theorem authenticate_disabled `{Util} (self : PasswordProtectedJSONRPCServer)
    (headers : HTTPMessage.t) :
  rpc_password self = "" ->
  authenticate self headers = ([], inr tt).
Proof.
  intros Hpw. run. rewrite Hpw. reflexivity.
Qed.

Lemma authenticate_disabled_witness :
  authenticate {| rpc_user := "alice"; rpc_password := "" |}
    [("Authorization", "Basic !not base64!")] = ([], inr tt).
Proof.
  apply (authenticate_disabled (H := electrum_util)
           {| rpc_user := "alice"; rpc_password := "" |}).
  reflexivity.
Defined.

(** C7. With a non-empty expected password: without an Authorization header
    the outcome is [RPCAuthCredentialsMissing]; with one, the value is cut at
    its first space into scheme token and remainder, and a scheme token other
    than [Basic], letter case included, gives [RPCAuthUnsupportedType]. *)
Theorem extraction_failures `{Util} (self : PasswordProtectedJSONRPCServer)
    (headers : HTTPMessage.t) :
  rpc_password self <> "" ->
  (HTTPMessage.get headers "Authorization" = None ->
   authenticate self headers = ([Get "Authorization"], inl RPCAuthCredentialsMissing))
  /\
  (forall auth_string scheme remainder : str,
     HTTPMessage.get headers "Authorization" = Some auth_string ->
     split_first " " auth_string scheme remainder ->
     scheme <> "Basic" ->
     authenticate self headers =
       ([Get "Authorization"; Partition auth_string " "], inl RPCAuthUnsupportedType)).
Proof.
  intros Hpw. split.
  - intros Hget. run. rewrite (password_set _ Hpw), Hget. reflexivity.
  - intros auth_string scheme remainder Hget Hsplit Hscheme.
    destruct (split_first_partition _ _ _ _ Hsplit) as [found Hp].
    run. rewrite (password_set _ Hpw), Hget. cbn. rewrite Hp. cbn.
    apply String.eqb_neq in Hscheme. rewrite Hscheme. reflexivity.
Qed.

Lemma extraction_failures_witness :
  authenticate alice [("Host", "localhost")]
    = ([Get "Authorization"], inl RPCAuthCredentialsMissing)
  /\ authenticate alice [("Authorization", "Digest xyz")]
    = ([Get "Authorization"; Partition "Digest xyz" " "], inl RPCAuthUnsupportedType)
  /\ authenticate alice [("Authorization", "basic YWxpY2U6c2VjcmV0")]
    = ([Get "Authorization"; Partition "basic YWxpY2U6c2VjcmV0" " "],
       inl RPCAuthUnsupportedType).
Proof.
  split; [|split].
  - apply (extraction_failures (H := electrum_util) alice [("Host", "localhost")]);
      [discriminate | reflexivity].
  - apply (extraction_failures (H := electrum_util) alice
             [("Authorization", "Digest xyz")] ltac:(discriminate))
      with (scheme := "Digest") (remainder := "xyz");
      [reflexivity | now apply split_at | discriminate].
  - apply (extraction_failures (H := electrum_util) alice
             [("Authorization", "basic YWxpY2U6c2VjcmV0")] ltac:(discriminate))
      with (scheme := "basic") (remainder := "YWxpY2U6c2VjcmV0");
      [reflexivity | now apply split_at | discriminate].
Defined.

Lemma comparisons_extraction_trace (auth_string encoded : str) (b decoded : bytes)
    (credentials : str) (t : list event) :
  comparisons (extraction_trace auth_string encoded b decoded credentials ++ t)
  = comparisons t.
Proof. reflexivity. Qed.

Lemma decodes_to_alice (user_pass : str) :
  utf8_valid (map Byte.to_N (list_byte_of_string user_pass)) = true ->
  base64.b64decode (list_byte_of_string
     (string_of_list_byte (base64.b64encode (list_byte_of_string user_pass))))
    = inr (list_byte_of_string user_pass) ->
  decodes_to [("Authorization", basic_auth user_pass)] user_pass.
Proof.
  intros Hutf8 Hb64.
  exists (basic_auth user_pass), " ",
    (string_of_list_byte (base64.b64encode (list_byte_of_string user_pass))),
    (list_byte_of_string
       (string_of_list_byte (base64.b64encode (list_byte_of_string user_pass)))),
    (list_byte_of_string user_pass).
  repeat split; try reflexivity.
  - exact Hb64.
  - cbn. rewrite Hutf8. now rewrite string_of_list_byte_of_string.
Qed.

(** C2, as the spec states it, fails: for the server [alice]/[secret] and the
    credentials [bob:secret] the user name is compared and found wrong, and
    the password is never handed to the comparator. *)
Lemma password_comparison_skipped :
  ~ both_compared alice [("Authorization", basic_auth "bob:secret")].
Proof.
  intros Hboth.
  destruct (Hboth "bob:secret" "bob" "secret") as [_ Hpw].
  - apply decodes_to_alice; reflexivity.
  - now apply split_at.
  - vm_compute in Hpw. destruct Hpw as [Hpw | []]. discriminate Hpw.
Qed.

(** C2, amended. With a non-empty expected password and credentials
    extracted, the user name is always handed to the comparator; the password
    is handed to it exactly when the user name matched ([and] of line 105
    stops at a false first operand); and the outcome is success exactly when
    the comparator accepted both, rejection with [RPCAuthCredentialsInvalid]
    otherwise: no other comparison decides it. *)
Theorem comparisons_made `{Util} (self : PasswordProtectedJSONRPCServer)
    (headers : HTTPMessage.t) (credentials username password : str) :
  rpc_password self <> "" ->
  decodes_to headers credentials ->
  split_first ":" credentials username password ->
  comparisons (fst (authenticate self headers))
    = (username, rpc_user self)
      :: (if constant_time_compare username (rpc_user self)
          then [(password, rpc_password self)] else [])
  /\ (snd (authenticate self headers) = inr tt <->
      constant_time_compare username (rpc_user self) = true
      /\ constant_time_compare password (rpc_password self) = true)
  /\ (snd (authenticate self headers) <> inr tt ->
      snd (authenticate self headers) = inl RPCAuthCredentialsInvalid).
Proof.
  intros Hpw (auth_string & sep & encoded & b & decoded & Hget & Hbasic & Hbytes & Hb64 & Hstring)
    Hsplit.
  destruct (split_first_partition _ _ _ _ Hsplit) as [sep' Hcred].
  rewrite (authenticate_extracted self headers _ _ _ _ _ _ _ _ _
             Hpw Hget Hbasic Hbytes Hb64 Hstring Hcred).
  cbn [fst snd]. rewrite comparisons_extraction_trace.
  destruct (constant_time_compare username (rpc_user self));
    destruct (constant_time_compare password (rpc_password self)); cbn;
    repeat split; try tauto; try discriminate; intros []; discriminate.
Qed.

Lemma comparisons_made_witness :
  comparisons (fst (authenticate alice [("Authorization", basic_auth "alice:wrong")]))
    = [("alice", "alice"); ("wrong", "secret")]
  /\ comparisons (fst (authenticate alice [("Authorization", basic_auth "bob:secret")]))
    = [("bob", "alice")].
Proof.
  split.
  - apply (comparisons_made (H := electrum_util) alice
             [("Authorization", basic_auth "alice:wrong")] "alice:wrong" "alice" "wrong");
      [discriminate | apply decodes_to_alice; reflexivity | now apply split_at].
  - apply (comparisons_made (H := electrum_util) alice
             [("Authorization", basic_auth "bob:secret")] "bob:secret" "bob" "secret");
      [discriminate | apply decodes_to_alice; reflexivity | now apply split_at].
Defined.

(** C3, as the spec states it, fails: [/w==] is valid base64, of the single
    byte 255, which is no UTF-8 text; for the server [alice]/[secret]
    [util.to_string] raises on it, and the outcome is neither success nor
    [RPCAuthCredentialsInvalid]. *)
Lemma valid_base64_not_text :
  ~ valid_base64_is_checked alice [("Authorization", "Basic /w==")].
Proof.
  intros Hclaim.
  destruct (Hclaim "Basic /w==" " " "/w==" (list_byte_of_string "/w==")
              eq_refl eq_refl eq_refl eq_refl) as [Hok | Hbad].
  - vm_compute in Hok. discriminate Hok.
  - vm_compute in Hbad. discriminate Hbad.
Qed.

(** C3, amended. With a non-empty expected password and an Authorization
    value whose scheme is [Basic] and whose remainder decodes to a text
    ([b64decode] accepts it and [util.to_string] returns): the text is cut at
    its first [:] into user name and password (without a [:], the whole text
    and the empty password); when both equal the expected ones the outcome is
    success, when either differs it is [RPCAuthCredentialsInvalid]. For
    [alice]/[secret], base64 of [alice:secret] is allowed and base64 of
    [alice:wrong] is rejected. *)
Theorem basic_credentials_checked :
  (forall (U : Util), ConstantTimeComparator U ->
   forall (self : PasswordProtectedJSONRPCServer) (headers : HTTPMessage.t)
          (credentials : str),
     rpc_password self <> "" ->
     decodes_to headers credentials ->
     exists username password : str,
       split_first ":" credentials username password
       /\ (occurs ":" credentials = false -> username = credentials /\ password = "")
       /\ (username = rpc_user self /\ password = rpc_password self ->
           snd (authenticate self headers) = inr tt)
       /\ (username <> rpc_user self \/ password <> rpc_password self ->
           snd (authenticate self headers) = inl RPCAuthCredentialsInvalid))
  /\ snd (authenticate alice [("Authorization", basic_auth "alice:secret")]) = inr tt
  /\ snd (authenticate alice [("Authorization", basic_auth "alice:wrong")])
     = inl RPCAuthCredentialsInvalid.
Proof.
  split; [|split; reflexivity].
  intros U HU self headers credentials Hpw
    (auth_string & sep & encoded & b & decoded & Hget & Hbasic & Hbytes & Hb64 & Hstring).
  destruct (PyStr.partition credentials ":") as [[username sep'] password] eqn:Hcred.
  pose proof (partition_split_first _ _ _ _ _ Hcred) as Hsplit.
  exists username, password.
  rewrite (authenticate_extracted self headers _ _ _ _ _ _ _ _ _
             Hpw Hget Hbasic Hbytes Hb64 Hstring Hcred).
  cbn [snd]. split; [exact Hsplit|]. split; [|split].
  - intros Hnone.
    apply (split_first_unique ":" credentials); [exact Hsplit | now apply split_none].
  - intros [Hu Hp]. apply constant_time_compare_eq in Hu, Hp. now rewrite Hu, Hp.
  - intros Hne.
    destruct (constant_time_compare username (rpc_user self)) eqn:Hu;
      destruct (constant_time_compare password (rpc_password self)) eqn:Hp;
      try reflexivity.
    apply constant_time_compare_eq in Hu, Hp. tauto.
Qed.

Lemma basic_credentials_checked_witness :
  exists username password : str,
    split_first ":" "alice" username password
    /\ (occurs ":" "alice" = false -> username = "alice" /\ password = "")
    /\ (username = "alice" /\ password = "secret" ->
        snd (authenticate alice [("Authorization", basic_auth "alice")]) = inr tt)
    /\ (username <> "alice" \/ password <> "secret" ->
        snd (authenticate alice [("Authorization", basic_auth "alice")])
        = inl RPCAuthCredentialsInvalid).
Proof.
  apply (proj1 basic_credentials_checked electrum_util electrum_util_comparator alice
           [("Authorization", basic_auth "alice")] "alice").
  - discriminate.
  - apply decodes_to_alice; reflexivity.
Defined.

(** C5. Every [RPCAuthCredentialsInvalid] is raised right after
    [time.sleep(0.050)], the only sleep of the call, and a call that returns
    normally has not slept. *)
Theorem invalid_credentials_delay `{Util} (self : PasswordProtectedJSONRPCServer)
    (headers : HTTPMessage.t) (t : list event) (r : result unit) :
  authenticate self headers = (t, r) ->
  (r = inl RPCAuthCredentialsInvalid ->
   exists t', t = t' ++ [Sleep 50] /\ no_sleep t' = true)
  /\ (r = inr tt -> no_sleep t = true).
Proof.
  run.
  destruct (String.eqb (rpc_password self) ""); [intros [= <- <-]; split; [discriminate | reflexivity]|].
  destruct (HTTPMessage.get headers "Authorization") as [auth_string|]; cbn;
    [|intros [= <- <-]; split; discriminate].
  destruct (PyStr.partition auth_string " ") as [[basic sep] encoded]; cbn.
  destruct (String.eqb basic "Basic"); cbn; [|intros [= <- <-]; split; discriminate].
  destruct (to_bytes encoded "utf8") as [f|b]; cbn; [intros [= <- <-]; split; discriminate|].
  destruct (base64.b64decode b) as [f|decoded]; cbn; [intros [= <- <-]; split; discriminate|].
  destruct (to_string decoded "utf8") as [f|credentials]; cbn;
    [intros [= <- <-]; split; discriminate|].
  destruct (PyStr.partition credentials ":") as [[username sep'] password]; cbn.
  destruct (constant_time_compare username (rpc_user self)); cbn;
    [destruct (constant_time_compare password (rpc_password self)); cbn|];
    intros [= <- <-]; (split; [intros Hr; try discriminate Hr | intros Hr; try discriminate Hr]);
    try reflexivity.
  - eexists (_ :: _ :: _ :: _ :: _ :: _ :: _ :: [_]). split; reflexivity.
  - eexists (_ :: _ :: _ :: _ :: _ :: _ :: [_]). split; reflexivity.
Qed.

Lemma invalid_credentials_delay_witness :
  exists t',
    fst (authenticate alice [("Authorization", basic_auth "alice:wrong")])
    = t' ++ [Sleep 50] /\ no_sleep t' = true.
Proof.
  refine (proj1 (invalid_credentials_delay (H := electrum_util) alice
                   [("Authorization", basic_auth "alice:wrong")] _ _ _) _);
    reflexivity.
Defined.

(** C6, as the spec states it, fails: [!!!!] is not valid base64, yet
    [b64decode], called without validation, skips the four bytes and returns
    the empty payload; for the server [alice]/[secret] the outcome is
    [RPCAuthCredentialsInvalid], one of the three credential classes. *)
Lemma invalid_base64_skipped :
  ~ invalid_base64_is_fault alice [("Authorization", "Basic !!!!")].
Proof.
  intros Hclaim.
  destruct (Hclaim "Basic !!!!" " " "!!!!" (list_byte_of_string "!!!!")
              eq_refl eq_refl eq_refl eq_refl) as (e & Hraise & He).
  vm_compute in Hraise. injection Hraise as <-. discriminate He.
Qed.

Example invalid_base64_answered_401 :
  parse_request alice (post [("Authorization", "Basic !!!!")])
  = ([Authenticate; Get "Authorization"; Partition "Basic !!!!" " ";
      ToBytes "!!!!" "utf8"; B64decode (list_byte_of_string "!!!!");
      ToString [] "utf8"; Partition "" ":"; ConstantTimeCompare "" "alice";
      Sleep 50; SendError 401 "RPCAuthCredentialsInvalid()"],
     inr false).
Proof. reflexivity. Qed.

Example invalid_base64_let_through :
  is_base64 (list_byte_of_string "YWxp Y2U6!c2Vj~cmV0") = false
  /\ snd (parse_request alice (post [("Authorization", "Basic YWxp Y2U6!c2Vj~cmV0")]))
     = inr true.
Proof. split; reflexivity. Qed.

(** C6, amended. With a non-empty expected password, an Authorization value
    whose scheme is [Basic] and on whose remainder [b64decode] raises makes
    [authenticate] raise the decoder's error, which is none of the three
    credential classes; [parse_request] then logs the exception, sends status
    500, not 401, and returns [False]. *)
Theorem malformed_base64_fault `{Util} (self : PasswordProtectedJSONRPCServer)
    (myself : VerifyingRequestHandler) (auth_string sep encoded : str) (b : bytes)
    (f : foreign) :
  rpc_password self <> "" ->
  HTTPMessage.get (headers myself) "Authorization" = Some auth_string ->
  PyStr.partition auth_string " " = ("Basic", sep, encoded) ->
  to_bytes encoded "utf8" = inr b ->
  base64.b64decode b = inl f ->
  authenticate self (headers myself)
    = ([Get "Authorization"; Partition auth_string " "; ToBytes encoded "utf8"; B64decode b],
       inl (Foreign f))
  /\ is_rpc_auth (Foreign f) = false
  /\ (SimpleJSONRPCRequestHandler_parse_request myself = true ->
      PyStr.strip (command myself) <> "OPTIONS" ->
      parse_request self myself
      = ([Authenticate; Get "Authorization"; Partition auth_string " ";
          ToBytes encoded "utf8"; B64decode b;
          LoggerException ""; SendError 500 (repr (Foreign f))],
         inr false)).
Proof.
  intros Hpw Hget Hbasic Hbytes Hb64.
  assert (Hauth : authenticate self (headers myself)
    = ([Get "Authorization"; Partition auth_string " "; ToBytes encoded "utf8"; B64decode b],
       inl (Foreign f))).
  { run. rewrite (password_set _ Hpw), Hget. cbn. rewrite Hbasic. cbn.
    rewrite Hbytes. cbn. rewrite Hb64. reflexivity. }
  split; [exact Hauth|]. split; [reflexivity|].
  intros Hbase Hcmd. unfold parse_request. rewrite Hbase.
  apply String.eqb_neq in Hcmd. rewrite Hcmd.
  unfold try_except, bind at 1. cbn [call]. unfold bind. rewrite Hauth. reflexivity.
Qed.

(** The same holds of an error raised by [util.to_string]: it leaves
    [authenticate] unchanged. *)
Lemma undecodable_text_fault `{Util} (self : PasswordProtectedJSONRPCServer)
    (headers : HTTPMessage.t) (auth_string sep encoded : str) (b decoded : bytes)
    (f : foreign) :
  rpc_password self <> "" ->
  HTTPMessage.get headers "Authorization" = Some auth_string ->
  PyStr.partition auth_string " " = ("Basic", sep, encoded) ->
  to_bytes encoded "utf8" = inr b ->
  base64.b64decode b = inr decoded ->
  to_string decoded "utf8" = inl f ->
  authenticate self headers
  = ([Get "Authorization"; Partition auth_string " "; ToBytes encoded "utf8";
      B64decode b; ToString decoded "utf8"],
     inl (Foreign f)).
Proof.
  intros Hpw Hget Hbasic Hbytes Hb64 Hstring.
  run. rewrite (password_set _ Hpw), Hget. cbn. rewrite Hbasic. cbn.
  rewrite Hbytes. cbn. rewrite Hb64. cbn. rewrite Hstring. reflexivity.
Qed.

Lemma malformed_base64_fault_witness :
  parse_request alice (post [("Authorization", "Basic /w=")])
  = ([Authenticate; Get "Authorization"; Partition "Basic /w=" " ";
      ToBytes "/w=" "utf8"; B64decode (list_byte_of_string "/w=");
      LoggerException ""; SendError 500 "Error('Incorrect padding')"],
     inr false).
Proof.
  apply (malformed_base64_fault (H := electrum_util) alice
           (post [("Authorization", "Basic /w=")]) "Basic /w=" " " "/w="
           (list_byte_of_string "/w=") (base64.Error "Incorrect padding"));
    try reflexivity; discriminate.
Defined.

(** ** [VerifyingRequestHandler.parse_request] *)

Section Handler.

Context {S : Type} `{Authenticator S}.
Variables (self : S) (myself : VerifyingRequestHandler).

Hypothesis inherited_ok : SimpleJSONRPCRequestHandler_parse_request myself = true.
Hypothesis not_options : PyStr.strip (command myself) <> "OPTIONS".

Lemma parse_request_allowed (t : list event) :
  authenticate self (headers myself) = (t, inr tt) ->
  parse_request self myself = (Authenticate :: t, inr true).
Proof.
  intros Hauth. unfold parse_request. rewrite inherited_ok.
  apply String.eqb_neq in not_options. rewrite not_options.
  unfold try_except, bind at 1. cbn [call]. unfold bind. rewrite Hauth.
  cbn. now rewrite app_nil_r.
Qed.

(** A rejection by one of the three credential classes: status 401 with
    [repr(e)] as message, nothing logged, [False] returned. *)
Lemma parse_request_rejected (t : list event) (e : exn) :
  authenticate self (headers myself) = (t, inl e) ->
  is_rpc_auth e = true ->
  parse_request self myself = (Authenticate :: t ++ [SendError 401 (repr e)], inr false).
Proof.
  intros Hauth He. unfold parse_request. rewrite inherited_ok.
  apply String.eqb_neq in not_options. rewrite not_options.
  unfold try_except, bind at 1. cbn [call]. unfold bind. rewrite Hauth, He.
  reflexivity.
Qed.

(** Any other exception: logged, status 500, [False] returned. *)
Lemma parse_request_fault (t : list event) (e : exn) :
  authenticate self (headers myself) = (t, inl e) ->
  is_rpc_auth e = false ->
  parse_request self myself
  = (Authenticate :: t ++ [LoggerException ""; SendError 500 (repr e)], inr false).
Proof.
  intros Hauth He. unfold parse_request. rewrite inherited_ok.
  apply String.eqb_neq in not_options. rewrite not_options.
  unfold try_except, bind at 1. cbn [call]. unfold bind. rewrite Hauth, He.
  reflexivity.
Qed.

End Handler.

(** A request the inherited [parse_request] refused goes no further. *)
Lemma parse_request_refused {S : Type} `{Authenticator S} (self : S)
    (myself : VerifyingRequestHandler) :
  SimpleJSONRPCRequestHandler_parse_request myself = false ->
  parse_request self myself = ([], inr false).
Proof. intros Hbase. unfold parse_request. now rewrite Hbase. Qed.

(** C4. What the code sends on a rejection: for [alice]/[secret] and a POST
    without Authorization header, [parse_request] sends status 401, logs
    nothing and returns [False], but the message is [repr(e)], the bare class
    name, and the description that [__str__] gives for the class (for any of
    the three classes) is no part of it. *)
Theorem rejection_message :
  parse_request alice (post [])
  = ([Authenticate; Get "Authorization"; SendError 401 "RPCAuthCredentialsMissing()"],
     inr false)
  /\ description RPCAuthCredentialsMissing
     = Some "Authentication failed (missing credentials)"
  /\ (forall (e : exn) (d : str),
        description e = Some d -> PyStr.contains (repr e) d = false).
Proof.
  split; [reflexivity|]. split; [reflexivity|].
  intros [| | | msg | f] d [= <-]; reflexivity.
Qed.

(** C8. For a request whose command is OPTIONS, under any authenticator,
    [parse_request] makes no call: [authenticate] is not invoked and no error
    is sent; and, the inherited [parse_request] having accepted the request,
    it returns [True]. *)
Theorem options_bypass {S : Type} `{Authenticator S} (self : S)
    (myself : VerifyingRequestHandler) :
  PyStr.strip (command myself) = "OPTIONS" ->
  fst (parse_request self myself) = []
  /\ (SimpleJSONRPCRequestHandler_parse_request myself = true ->
      parse_request self myself = ([], inr true)).
Proof.
  intros Hcmd. unfold parse_request. rewrite Hcmd.
  destruct (SimpleJSONRPCRequestHandler_parse_request myself); split; try reflexivity.
  discriminate.
Qed.

Lemma options_bypass_witness :
  parse_request mkAuthenticatedJSONRPCServer (options []) = ([], inr true)
  /\ parse_request alice (options []) = ([], inr true).
Proof.
  split.
  - apply (options_bypass mkAuthenticatedJSONRPCServer (options [])); reflexivity.
  - apply (options_bypass alice (options [])); reflexivity.
Defined.

(** C10. The base class's [authenticate] raises [Exception('undefined')]
    whatever the headers, which is none of the three credential classes; so
    for every request that is not OPTIONS [parse_request] returns [False],
    and, the inherited [parse_request] having accepted the request, the
    exception is logged and status 500 is sent. *)
Theorem base_server_fails_closed (self : AuthenticatedJSONRPCServer)
    (myself : VerifyingRequestHandler) :
  PyStr.strip (command myself) <> "OPTIONS" ->
  (forall h : HTTPMessage.t, authenticate self h = ([], inl (Exception "undefined")))
  /\ is_rpc_auth (Exception "undefined") = false
  /\ snd (parse_request self myself) = inr false
  /\ (SimpleJSONRPCRequestHandler_parse_request myself = true ->
      parse_request self myself
      = ([Authenticate; LoggerException ""; SendError 500 "Exception('undefined')"],
         inr false)).
Proof.
  intros Hcmd. split; [reflexivity|]. split; [reflexivity|].
  destruct (SimpleJSONRPCRequestHandler_parse_request myself) eqn:Hbase.
  - rewrite (parse_request_fault self myself Hbase Hcmd [] (Exception "undefined"));
      [now split | reflexivity | reflexivity].
  - rewrite (parse_request_refused self myself Hbase). split; [reflexivity | discriminate].
Qed.

Lemma base_server_fails_closed_witness :
  parse_request mkAuthenticatedJSONRPCServer
    (post [("Authorization", basic_auth "alice:secret")])
  = ([Authenticate; LoggerException ""; SendError 500 "Exception('undefined')"],
     inr false).
Proof.
  apply (base_server_fails_closed mkAuthenticatedJSONRPCServer
           (post [("Authorization", basic_auth "alice:secret")]));
    [discriminate | reflexivity].
Defined.

(** ** [AccountsJSONRPCServer.add_user] *)

Section Registry.

Context {pubkey : Type}.
Implicit Types (self : AccountsJSONRPCServer pubkey) (pks : list pubkey).

Lemma size_map_seq_0 pks : size (map_seq 0 pks : gmap nat pubkey) = length pks.
Proof.
  induction pks as [|pk pks IH] using rev_ind.
  - apply map_size_empty.
  - rewrite map_seq_snoc, length_app, map_size_insert_None, IH; [simpl; lia|].
    apply lookup_map_seq_None. right. lia.
Qed.

(** On a server whose table holds [registered] under the ids 0, 1, ..., the
    calls for [pks] return the next ids and extend the table in place. *)
Lemma add_users_from self (registered pks : list pubkey) :
  users self = map_seq 0 registered ->
  add_users self pks
  = (seq (length registered) (length pks),
     {| users := map_seq 0 (registered ++ pks) |}).
Proof.
  revert self registered.
  induction pks as [|pk pks IH]; intros self registered Husers.
  - simpl. rewrite app_nil_r, <- Husers. now destruct self.
  - cbn [add_users add_user]. rewrite Husers, size_map_seq_0.
    rewrite (IH _ (registered ++ [pk])).
    + rewrite length_app, <- app_assoc. simpl.
      now replace (length registered + 1) with (Datatypes.S (length registered)) by lia.
    + cbn [users]. now rewrite map_seq_snoc.
Qed.

End Registry.

(** C9. On a fresh registry, [n] successive [add_user] calls return 0, 1,
    ..., n-1 in order, and afterwards, whatever [n], each id assigned so far
    maps to the key registered with it and no other id is taken; the next call
    returns [n]. [add_user("pubkey1")] then [add_user("pubkey2")] return 0
    then 1, after which id 0 holds [pubkey1] and id 1 holds [pubkey2]. *)
Theorem add_user_ids :
  (forall (pubkey : Type) (pks : list pubkey),
     fst (add_users AccountsJSONRPCServer_init pks) = seq 0 (length pks)
     /\ (forall i : nat,
           users (snd (add_users AccountsJSONRPCServer_init pks)) !! i = pks !! i)
     /\ (forall pk : pubkey,
           fst (add_user (snd (add_users AccountsJSONRPCServer_init pks)) pk)
           = length pks))
  /\ (let '(id1, self1) := add_user AccountsJSONRPCServer_init "pubkey1" in
      let '(id2, self2) := add_user self1 "pubkey2" in
      id1 = 0 /\ id2 = 1
      /\ users self1 !! 0 = Some "pubkey1"
      /\ users self2 !! 0 = Some "pubkey1" /\ users self2 !! 1 = Some "pubkey2").
Proof.
  split.
  - intros pubkey pks.
    rewrite (add_users_from AccountsJSONRPCServer_init [] pks eq_refl).
    cbn [fst snd users length app add_user]. split; [reflexivity|]. split.
    + intros i. apply lookup_map_seq_0.
    + intros _. apply size_map_seq_0.
  - cbn. repeat split; reflexivity.
Qed.

(** * Further properties *)

(** ** The outcomes of [PasswordProtectedJSONRPCServer.authenticate] *)

(** [authenticate] follows one of the paths. *)
Lemma authenticate_run `{Util} (self : PasswordProtectedJSONRPCServer)
    (headers : HTTPMessage.t) :
  authenticate_path self headers (authenticate self headers).
Proof.
  destruct (String.eqb (rpc_password self) "") eqn:Hpw.
  { apply String.eqb_eq in Hpw. run. rewrite Hpw. cbn. now apply path_disabled. }
  apply String.eqb_neq in Hpw.
  destruct (HTTPMessage.get headers "Authorization") as [auth_string|] eqn:Hget.
  2: { run. rewrite (password_set _ Hpw), Hget. now apply path_missing. }
  destruct (PyStr.partition auth_string " ") as [[basic sep] encoded] eqn:Hbasic.
  destruct (String.eqb basic "Basic") eqn:Hscheme.
  2: { run. rewrite (password_set _ Hpw), Hget. cbn. rewrite Hbasic. cbn.
       rewrite Hscheme. cbn. apply String.eqb_neq in Hscheme.
       now apply (path_unsupported self headers auth_string basic sep encoded). }
  apply String.eqb_eq in Hscheme. subst basic.
  destruct (to_bytes encoded "utf8") as [f|b] eqn:Hbytes.
  { run. rewrite (password_set _ Hpw), Hget. cbn. rewrite Hbasic. cbn.
    rewrite Hbytes. cbn. now apply (path_to_bytes self headers auth_string sep encoded). }
  destruct (base64.b64decode b) as [f|decoded] eqn:Hb64.
  { run. rewrite (password_set _ Hpw), Hget. cbn. rewrite Hbasic. cbn.
    rewrite Hbytes. cbn. rewrite Hb64. cbn.
    now apply (path_b64decode self headers auth_string sep encoded b). }
  destruct (to_string decoded "utf8") as [f|credentials] eqn:Hstring.
  { run. rewrite (password_set _ Hpw), Hget. cbn. rewrite Hbasic. cbn.
    rewrite Hbytes. cbn. rewrite Hb64. cbn. rewrite Hstring. cbn.
    now apply (path_to_string self headers auth_string sep encoded b decoded). }
  destruct (PyStr.partition credentials ":") as [[username sep'] password] eqn:Hcred.
  rewrite (authenticate_extracted self headers _ _ _ _ _ _ _ _ _
             Hpw Hget Hbasic Hbytes Hb64 Hstring Hcred).
  now apply (path_compared self headers auth_string sep encoded b decoded
               credentials username sep' password).
Qed.

Lemma decodes_to_unique `{Util} (headers : HTTPMessage.t) (c1 c2 : str) :
  decodes_to headers c1 -> decodes_to headers c2 -> c1 = c2.
Proof.
  intros (a1 & s1 & e1 & b1 & d1 & Hg1 & Hp1 & Hb1 & Hd1 & Hs1)
         (a2 & s2 & e2 & b2 & d2 & Hg2 & Hp2 & Hb2 & Hd2 & Hs2).
  rewrite Hg1 in Hg2. injection Hg2 as <-.
  rewrite Hp1 in Hp2. injection Hp2 as <- <-.
  rewrite Hb1 in Hb2. injection Hb2 as <-.
  rewrite Hd1 in Hd2. injection Hd2 as <-.
  rewrite Hs1 in Hs2. now injection Hs2.
Qed.

(** Once the credentials are decoded, the outcome is the comparator's. *)
Lemma decoded_outcome `{Util} (self : PasswordProtectedJSONRPCServer)
    (headers : HTTPMessage.t) (credentials username sep' password : str) :
  rpc_password self <> "" ->
  decodes_to headers credentials ->
  PyStr.partition credentials ":" = (username, sep', password) ->
  snd (authenticate self headers)
  = if constant_time_compare username (rpc_user self)
       && constant_time_compare password (rpc_password self)
    then inr tt else inl RPCAuthCredentialsInvalid.
Proof.
  intros Hpw (a & s & e & b & d & Hget & Hbasic & Hbytes & Hb64 & Hstring) Hcred.
  now rewrite (authenticate_extracted self headers _ _ _ _ _ _ _ _ _
                 Hpw Hget Hbasic Hbytes Hb64 Hstring Hcred).
Qed.

(** The comparator accepts both fields exactly when the decoded text is the
    expected user name, a colon and the expected password, the user name
    having no colon of its own. *)
Lemma credentials_match_iff `{Util} `{!ConstantTimeComparator _}
    (self : PasswordProtectedJSONRPCServer) (credentials username sep' password : str) :
  rpc_password self <> "" ->
  PyStr.partition credentials ":" = (username, sep', password) ->
  constant_time_compare username (rpc_user self)
    && constant_time_compare password (rpc_password self) = true
  <-> occurs ":" (rpc_user self) = false
      /\ credentials = rpc_user self +:+ ":" +:+ rpc_password self.
Proof.
  intros Hpw Hcred. rewrite andb_true_iff, !constant_time_compare_eq. split.
  - intros [-> ->].
    destruct (partition_split_first _ _ _ _ _ Hcred) as [u p Heq Hocc | Hocc].
    + now split.
    + now contradict Hpw.
  - intros [Hocc ->].
    destruct (split_first_partition ":" _ (rpc_user self) (rpc_password self)
                (split_at _ _ _ _ eq_refl Hocc)) as [found Hp].
    change (rpc_user self +:+ ":" +:+ rpc_password self)
      with (rpc_user self +:+ String ":" (rpc_password self)) in Hcred.
    rewrite Hp in Hcred. now injection Hcred as <- _ <-.
Qed.

(** A normal return has one of two causes. *)
Lemma allowed_inv `{Util} (self : PasswordProtectedJSONRPCServer)
    (headers : HTTPMessage.t) :
  snd (authenticate self headers) = inr tt ->
  rpc_password self = ""
  \/ (rpc_password self <> ""
      /\ exists credentials username sep' password : str,
           decodes_to headers credentials
           /\ PyStr.partition credentials ":" = (username, sep', password)
           /\ constant_time_compare username (rpc_user self)
              && constant_time_compare password (rpc_password self) = true).
Proof.
  generalize (authenticate_run self headers).
  generalize (authenticate self headers) as m. intros m Hrun.
  destruct Hrun as [Hpw | | | | | | a s e b d c u s' p Hpw Hget Hbasic Hbytes Hb64 Hstring Hcred];
    cbn [snd]; intros Hok; try discriminate Hok.
  - now left.
  - right. split; [exact Hpw|]. exists c, u, s', p. split; [|split; [exact Hcred|]].
    + now exists a, s, e, b, d.
    + destruct (constant_time_compare u (rpc_user self)
                && constant_time_compare p (rpc_password self)); [reflexivity | discriminate].
Qed.

(** Either cause is enough. *)
Lemma allowed_intro `{Util} `{!ConstantTimeComparator _}
    (self : PasswordProtectedJSONRPCServer) (headers : HTTPMessage.t) :
  rpc_password self = ""
  \/ (occurs ":" (rpc_user self) = false
      /\ decodes_to headers (rpc_user self +:+ ":" +:+ rpc_password self)) ->
  snd (authenticate self headers) = inr tt.
Proof.
  intros [Hpw | [Hocc Hdec]].
  - run. now rewrite Hpw.
  - destruct (String.eqb (rpc_password self) "") eqn:Hpw.
    { apply String.eqb_eq in Hpw. run. now rewrite Hpw. }
    apply String.eqb_neq in Hpw.
    destruct (PyStr.partition (rpc_user self +:+ ":" +:+ rpc_password self) ":")
      as [[u s'] p] eqn:Hcred.
    rewrite (decoded_outcome self headers _ u s' p Hpw Hdec Hcred).
    now rewrite (proj2 (credentials_match_iff self _ u s' p Hpw Hcred)).
Qed.

(** X1. [authenticate] returns normally in exactly two cases: the expected
    password is empty, or the Authorization value has scheme [Basic] and
    decodes to the expected user name, a colon and the expected password,
    the expected user name having no colon. *)
Theorem allowed_iff `{Util} `{!ConstantTimeComparator _}
    (self : PasswordProtectedJSONRPCServer) (headers : HTTPMessage.t) :
  snd (authenticate self headers) = inr tt
  <-> rpc_password self = ""
      \/ (occurs ":" (rpc_user self) = false
          /\ decodes_to headers (rpc_user self +:+ ":" +:+ rpc_password self)).
Proof.
  split; [|apply allowed_intro].
  intros Hok. destruct (allowed_inv self headers Hok)
    as [Hpw | (Hpw & c & u & s' & p & Hdec & Hcred & Hboth)]; [now left | right].
  apply (credentials_match_iff self c u s' p Hpw Hcred) in Hboth as [Hocc ->].
  now split.
Qed.

Lemma allowed_iff_witness :
  snd (authenticate alice [("authorization", "Basic YWxpY2U6c2VjcmV0")]) = inr tt.
Proof.
  apply (allowed_iff (H := electrum_util) alice
           [("authorization", "Basic YWxpY2U6c2VjcmV0")]).
  right. split; [reflexivity|].
  exists "Basic YWxpY2U6c2VjcmV0", " ", "YWxpY2U6c2VjcmV0",
    (list_byte_of_string "YWxpY2U6c2VjcmV0"), (list_byte_of_string "alice:secret").
  repeat split; reflexivity.
Defined.

(** X2. An expected user name that holds a colon can never log in: with a
    non-empty expected password, no header mapping makes [authenticate]
    return normally. *)
Theorem colon_in_user_locks_out `{Util} `{!ConstantTimeComparator _}
    (self : PasswordProtectedJSONRPCServer) (headers : HTTPMessage.t) :
  rpc_password self <> "" ->
  occurs ":" (rpc_user self) = true ->
  snd (authenticate self headers) <> inr tt.
Proof.
  intros Hpw Hcolon Hok.
  destruct (allowed_inv self headers Hok)
    as [Hpw' | (_ & c & u & s' & p & Hdec & Hcred & Hboth)]; [contradiction|].
  apply (credentials_match_iff self c u s' p Hpw Hcred) in Hboth as [Hocc _].
  congruence.
Qed.

Lemma colon_in_user_locks_out_witness :
  snd (authenticate {| rpc_user := "a:b"; rpc_password := "secret" |}
         [("Authorization", basic_auth "a:b:secret")]) <> inr tt.
Proof.
  apply (colon_in_user_locks_out (H := electrum_util)
           {| rpc_user := "a:b"; rpc_password := "secret" |});
    [discriminate | reflexivity].
Defined.

(** X3. With a non-empty expected password, the class of the rejection tells
    its cause: [RPCAuthCredentialsMissing] is raised exactly when there is no
    Authorization header, [RPCAuthUnsupportedType] exactly when there is one
    and the text before its first space is not [Basic]. *)
Theorem rejection_causes `{Util} (self : PasswordProtectedJSONRPCServer)
    (headers : HTTPMessage.t) :
  rpc_password self <> "" ->
  (snd (authenticate self headers) = inl RPCAuthCredentialsMissing
   <-> HTTPMessage.get headers "Authorization" = None)
  /\ (snd (authenticate self headers) = inl RPCAuthUnsupportedType
      <-> exists auth_string : str,
            HTTPMessage.get headers "Authorization" = Some auth_string
            /\ fst (fst (PyStr.partition auth_string " ")) <> "Basic").
Proof.
  intros Hpw.
  generalize (authenticate_run self headers).
  generalize (authenticate self headers) as m. intros m Hrun.
  destruct Hrun as [Hpw' | _ Hget | a basic s e _ Hget Hbasic Hscheme
                   | a s e f _ Hget Hbasic _ | a s e b f _ Hget Hbasic _ _
                   | a s e b d f _ Hget Hbasic _ _ _
                   | a s e b d c u s' p _ Hget Hbasic _ _ _ _];
    cbn [snd]; [contradiction | | | | | |].
  - split; [tauto|]. split; [discriminate|]. intros (a & Ha & _). congruence.
  - split; [split; [discriminate | congruence]|]. split; [intros _|reflexivity].
    exists a. now rewrite Hbasic.
  - split; [split; [discriminate | congruence]|]. split; [discriminate|].
    intros (a' & Ha & Hne). rewrite Hget in Ha. injection Ha as <-.
    rewrite Hbasic in Hne. now contradict Hne.
  - split; [split; [discriminate | congruence]|]. split; [discriminate|].
    intros (a' & Ha & Hne). rewrite Hget in Ha. injection Ha as <-.
    rewrite Hbasic in Hne. now contradict Hne.
  - split; [split; [discriminate | congruence]|]. split; [discriminate|].
    intros (a' & Ha & Hne). rewrite Hget in Ha. injection Ha as <-.
    rewrite Hbasic in Hne. now contradict Hne.
  - destruct (constant_time_compare u (rpc_user self)
              && constant_time_compare p (rpc_password self));
      (split; [split; [discriminate | congruence]|]; split; [discriminate|]);
      intros (a' & Ha & Hne); rewrite Hget in Ha; injection Ha as <-;
      rewrite Hbasic in Hne; now contradict Hne.
Qed.

Lemma rejection_causes_witness :
  snd (authenticate alice [("Host", "localhost")]) = inl RPCAuthCredentialsMissing
  /\ snd (authenticate alice [("Authorization", "Bearer abc")]) = inl RPCAuthUnsupportedType.
Proof.
  split.
  - apply (rejection_causes (H := electrum_util) alice [("Host", "localhost")]);
      [discriminate | reflexivity].
  - apply (rejection_causes (H := electrum_util) alice [("Authorization", "Bearer abc")]);
      [discriminate|].
    exists "Bearer abc". split; [reflexivity | discriminate].
Defined.

(** X4. With a non-empty expected password, [RPCAuthCredentialsInvalid] is
    raised exactly when the Authorization value decodes to some text and
    that text is not the expected pair (or the expected user name has a
    colon, so that no text can match). *)
Theorem invalid_iff `{Util} `{!ConstantTimeComparator _}
    (self : PasswordProtectedJSONRPCServer) (headers : HTTPMessage.t) :
  rpc_password self <> "" ->
  snd (authenticate self headers) = inl RPCAuthCredentialsInvalid
  <-> exists credentials : str,
        decodes_to headers credentials
        /\ ~ (occurs ":" (rpc_user self) = false
              /\ credentials = rpc_user self +:+ ":" +:+ rpc_password self).
Proof.
  intros Hpw. split.
  - generalize (authenticate_run self headers).
    generalize (authenticate self headers) as m. intros m Hrun.
    destruct Hrun as [ | | | | | | a s e b d c u s' p _ Hget Hbasic Hbytes Hb64 Hstring Hcred];
      cbn [snd]; intros Hbad; try discriminate Hbad.
    exists c. split; [now exists a, s, e, b, d|].
    intros Hmatch. apply (credentials_match_iff self c u s' p Hpw Hcred) in Hmatch.
    rewrite Hmatch in Hbad. discriminate.
  - intros (c & Hdec & Hne).
    destruct (PyStr.partition c ":") as [[u s'] p] eqn:Hcred.
    rewrite (decoded_outcome self headers c u s' p Hpw Hdec Hcred).
    destruct (constant_time_compare u (rpc_user self)
              && constant_time_compare p (rpc_password self)) eqn:Hboth; [|reflexivity].
    now apply (credentials_match_iff self c u s' p Hpw Hcred) in Hboth.
Qed.

Lemma invalid_iff_witness :
  snd (authenticate alice [("Authorization", basic_auth "alice")])
  = inl RPCAuthCredentialsInvalid.
Proof.
  apply (invalid_iff (H := electrum_util) alice
           [("Authorization", basic_auth "alice")]); [discriminate|].
  exists "alice". split; [apply decodes_to_alice; reflexivity|].
  intros [_ Heq]. discriminate Heq.
Defined.

(** X5. [authenticate] raises nothing of its own besides the three
    credential classes: any other exception is one that [util.to_bytes],
    [b64decode] or [util.to_string] raised, passed on unchanged. *)
Theorem faults_come_from_callees `{Util} (self : PasswordProtectedJSONRPCServer)
    (headers : HTTPMessage.t) (e : exn) :
  snd (authenticate self headers) = inl e ->
  is_rpc_auth e = false ->
  exists f : foreign,
    e = Foreign f
    /\ ((exists s : str, to_bytes s "utf8" = inl f)
        \/ (exists b : bytes, base64.b64decode b = inl f)
        \/ (exists b : bytes, to_string b "utf8" = inl f)).
Proof.
  generalize (authenticate_run self headers).
  generalize (authenticate self headers) as m. intros m Hrun.
  destruct Hrun as [ | | | a s enc f _ _ _ Hbytes | a s enc b f _ _ _ _ Hb64
                   | a s enc b d f _ _ _ _ _ Hstring | a s enc b d c u s' p _ _ _ _ _ _ _];
    cbn [snd]; intros Hraise He.
  - discriminate Hraise.
  - injection Hraise as <-. discriminate He.
  - injection Hraise as <-. discriminate He.
  - injection Hraise as <-. exists f. split; [reflexivity|]. left. now exists enc.
  - injection Hraise as <-. exists f. split; [reflexivity|]. right. left. now exists b.
  - injection Hraise as <-. exists f. split; [reflexivity|]. right. right. now exists d.
  - destruct (constant_time_compare u (rpc_user self)
              && constant_time_compare p (rpc_password self)); [discriminate Hraise|].
    injection Hraise as <-. discriminate He.
Qed.

Lemma faults_come_from_callees_witness :
  exists f : foreign,
    Foreign (base64.Error "Incorrect padding") = Foreign f
    /\ ((exists s : str, to_bytes s "utf8" = inl f)
        \/ (exists b : bytes, base64.b64decode b = inl f)
        \/ (exists b : bytes, to_string b "utf8" = inl f)).
Proof.
  apply (faults_come_from_callees (H := electrum_util) alice
           [("Authorization", "Basic /w=")]); reflexivity.
Defined.

(** X6. The delay is for wrong credentials only: a call of [authenticate]
    sleeps exactly when it ends in [RPCAuthCredentialsInvalid]; a missing
    header, another scheme or an undecodable payload is reported at once. *)
Theorem sleep_iff_invalid `{Util} (self : PasswordProtectedJSONRPCServer)
    (headers : HTTPMessage.t) :
  no_sleep (fst (authenticate self headers)) = false
  <-> snd (authenticate self headers) = inl RPCAuthCredentialsInvalid.
Proof.
  generalize (authenticate_run self headers).
  generalize (authenticate self headers) as m. intros m Hrun.
  destruct Hrun as [ | | | | | | a s e b d c u s' p _ _ _ _ _ _ _];
    cbn [fst snd]; try (split; discriminate).
  destruct (constant_time_compare u (rpc_user self));
    [destruct (constant_time_compare p (rpc_password self))|];
    cbn; split; (reflexivity || discriminate).
Qed.

(** ** What [parse_request] returns and sends *)

(** The value of [parse_request], for any authenticator. *)
Lemma parse_request_value {S : Type} `{Authenticator S} (self : S)
    (myself : VerifyingRequestHandler) :
  snd (parse_request self myself)
  = inr (SimpleJSONRPCRequestHandler_parse_request myself
         && (String.eqb (PyStr.strip (command myself)) "OPTIONS"
             || match snd (authenticate self (headers myself)) with
                | inr _ => true
                | inl _ => false
                end)).
Proof.
  unfold parse_request.
  destruct (SimpleJSONRPCRequestHandler_parse_request myself); [|reflexivity].
  destruct (String.eqb (PyStr.strip (command myself)) "OPTIONS"); [reflexivity|].
  unfold try_except, bind at 1. cbn [call]. unfold bind.
  destruct (authenticate self (headers myself)) as [t [e|[]]]; cbn; [|reflexivity].
  now destruct (is_rpc_auth e).
Qed.

(** The calls of [parse_request], for any authenticator. *)
Lemma parse_request_trace {S : Type} `{Authenticator S} (self : S)
    (myself : VerifyingRequestHandler) :
  fst (parse_request self myself)
  = if SimpleJSONRPCRequestHandler_parse_request myself
       && negb (String.eqb (PyStr.strip (command myself)) "OPTIONS")
    then Authenticate :: fst (authenticate self (headers myself))
         ++ match snd (authenticate self (headers myself)) with
            | inr _ => []
            | inl e =>
                if is_rpc_auth e then [SendError 401 (repr e)]
                else [LoggerException ""; SendError 500 (repr e)]
            end
    else [].
Proof.
  unfold parse_request.
  destruct (SimpleJSONRPCRequestHandler_parse_request myself); [|reflexivity].
  destruct (String.eqb (PyStr.strip (command myself)) "OPTIONS"); [reflexivity|].
  unfold try_except, bind at 1. cbn [call]. unfold bind.
  destruct (authenticate self (headers myself)) as [t [e|[]]]; cbn; [|reflexivity].
  now destruct (is_rpc_auth e).
Qed.

(** X7. For any authenticator, [parse_request] returns [True] exactly when
    the inherited [parse_request] accepted the request and either the
    command is OPTIONS or [authenticate] returned normally. *)
Theorem parse_request_verdict {S : Type} `{Authenticator S} (self : S)
    (myself : VerifyingRequestHandler) :
  snd (parse_request self myself) = inr true
  <-> SimpleJSONRPCRequestHandler_parse_request myself = true
      /\ (PyStr.strip (command myself) = "OPTIONS"
          \/ snd (authenticate self (headers myself)) = inr tt).
Proof.
  rewrite parse_request_value, <- String.eqb_eq. split.
  - intros [= Hb]. apply andb_true_iff in Hb as [Hbase Hor]. split; [exact Hbase|].
    apply orb_true_iff in Hor as [Hopt | Hauth]; [now left | right].
    now destruct (snd (authenticate self (headers myself))) as [e|[]].
  - intros [-> [-> | ->]]; [reflexivity|]. cbn. now rewrite orb_true_r.
Qed.






(** X9. Access to a password-protected server, end to end: [parse_request]
    returns [True] exactly for the requests that the inherited
    [parse_request] accepted and that are OPTIONS requests, or arrive while
    the expected password is empty, or carry a [Basic] Authorization value
    that decodes to the expected user name, a colon and the expected
    password. *)
Theorem access_granted_iff `{Util} `{!ConstantTimeComparator _}
    (self : PasswordProtectedJSONRPCServer) (myself : VerifyingRequestHandler) :
  snd (parse_request self myself) = inr true
  <-> SimpleJSONRPCRequestHandler_parse_request myself = true
      /\ (PyStr.strip (command myself) = "OPTIONS"
          \/ rpc_password self = ""
          \/ (occurs ":" (rpc_user self) = false
              /\ decodes_to (headers myself)
                   (rpc_user self +:+ ":" +:+ rpc_password self))).
Proof.
  rewrite parse_request_value, <- String.eqb_eq. split.
  - intros [= Hb]. apply andb_true_iff in Hb as [Hbase Hor]. split; [exact Hbase|].
    apply orb_true_iff in Hor as [Hopt | Hauth]; [now left | right].
    destruct (snd (authenticate self (headers myself))) as [e|[]] eqn:Hok;
      [discriminate Hauth|].
    destruct (allowed_inv self (headers myself) Hok)
      as [Hpw | (Hpw & c & u & s' & p & Hdec & Hcred & Hboth)]; [now left | right].
    apply (credentials_match_iff self c u s' p Hpw Hcred) in Hboth as [Hocc ->].
    now split.
  - intros [-> [-> | Hcause]]; [reflexivity|].
    rewrite (allowed_intro self (headers myself) Hcause). cbn. now rewrite orb_true_r.
Qed.

Lemma access_granted_iff_witness :
  snd (parse_request alice (post [("Authorization", basic_auth "alice:secret")]))
  = inr true.
Proof.
  apply (access_granted_iff (H := electrum_util) alice
           (post [("Authorization", basic_auth "alice:secret")])).
  split; [reflexivity|]. right. right. split; [reflexivity|].
  apply decodes_to_alice; reflexivity.
Defined.

(** X10. The accounts server authenticates nobody: [parse_request] returns
    what the inherited [parse_request] returned, whatever the headers and
    whoever is registered; and for a request that the inherited
    [parse_request] accepted, lines 62-73 send no error and log nothing. *)
Theorem accounts_accept_all {pubkey : Type} (self : AccountsJSONRPCServer pubkey)
    (myself : VerifyingRequestHandler) :
  snd (parse_request self myself)
  = inr (SimpleJSONRPCRequestHandler_parse_request myself)
  /\ (SimpleJSONRPCRequestHandler_parse_request myself = true ->
      errors_sent (fst (parse_request self myself)) = []
      /\ logged (fst (parse_request self myself)) = []).
Proof.
  rewrite parse_request_value, parse_request_trace.
  change (authenticate self (headers myself)) with (@ret unit tt). cbn [ret fst snd].
  rewrite orb_true_r, andb_true_r. split; [reflexivity|].
  intros ->. cbn [andb].
  destruct (negb (String.eqb (PyStr.strip (command myself)) "OPTIONS"));
    split; reflexivity.
Qed.

Lemma accounts_accept_all_witness :
  errors_sent (fst (parse_request (@AccountsJSONRPCServer_init string)
                      (post [("Host", "localhost")]))) = []
  /\ logged (fst (parse_request (@AccountsJSONRPCServer_init string)
                    (post [("Host", "localhost")]))) = [].
Proof.
  apply (accounts_accept_all (@AccountsJSONRPCServer_init string)
           (post [("Host", "localhost")])).
  reflexivity.
Defined.

(** ** The registry beyond a fresh start *)

Section RegistryInvariant.

Context {pubkey : Type}.
Implicit Types (self : AccountsJSONRPCServer pubkey) (pks : list pubkey).

Lemma dense_next_free self : dense self -> users self !! size (users self) = None.
Proof.
  intros Hdense. destruct (users self !! size (users self)) as [pk|] eqn:Hlookup;
    [|reflexivity].
  assert (Hlt : size (users self) < size (users self)) by (apply Hdense; eauto).
  lia.
Qed.

Lemma dense_init : dense (@AccountsJSONRPCServer_init pubkey).
Proof.
  intros i. cbn. rewrite lookup_empty, map_size_empty. split; [intros [x Hx]|]; [discriminate | lia].
Qed.

Lemma add_user_dense self (pk : pubkey) : dense self -> dense (snd (add_user self pk)).
Proof.
  intros Hdense i. cbn.
  rewrite (map_size_insert_None _ _ _ (dense_next_free self Hdense)).
  destruct (decide (i = size (users self))) as [->|Hne].
  - rewrite lookup_insert_eq. split; [lia | eauto].
  - rewrite lookup_insert_ne by lia. rewrite (Hdense i). lia.
Qed.

End RegistryInvariant.

(** X11. [add_user] keeps the table dense: when the ids in use are exactly
    0, ..., n-1, the call returns n, an id that was free; afterwards n holds
    the new key, every other id holds what it held, the table has one more
    entry, and the ids in use are exactly 0, ..., n. *)
Theorem add_user_keeps_dense {pubkey : Type} (self : AccountsJSONRPCServer pubkey)
    (pk : pubkey) :
  dense self ->
  let user_id := fst (add_user self pk) in
  let self' := snd (add_user self pk) in
  users self !! user_id = None
  /\ users self' !! user_id = Some pk
  /\ (forall i : nat, i <> user_id -> users self' !! i = users self !! i)
  /\ size (users self') = Datatypes.S (size (users self))
  /\ dense self'.
Proof.
  intros Hdense. cbv zeta. split; [exact (dense_next_free self Hdense)|].
  split; [apply lookup_insert_eq|]. split; [|split].
  - intros i Hne. cbn in *. apply lookup_insert_ne. lia.
  - cbn. apply map_size_insert_None, (dense_next_free self Hdense).
  - now apply add_user_dense.
Qed.

Lemma add_user_keeps_dense_witness :
  users (@AccountsJSONRPCServer_init string) !! 0 = None
  /\ users (snd (add_user AccountsJSONRPCServer_init "pubkey1")) !! 0 = Some "pubkey1".
Proof.
  destruct (add_user_keeps_dense AccountsJSONRPCServer_init "pubkey1" dense_init)
    as (Hfree & Hnew & _).
  split; [exact Hfree | exact Hnew].
Defined.

(** X12. [add_user] does not look whether the id it computes is free: on a
    table that holds an entry under [len(self.users)], the call replaces
    that entry, leaves the size as it was, and the next call returns the
    same id again. *)
Theorem add_user_taken_id {pubkey : Type} (self : AccountsJSONRPCServer pubkey)
    (old pk pk' : pubkey) :
  users self !! size (users self) = Some old ->
  let user_id := fst (add_user self pk) in
  let self' := snd (add_user self pk) in
  users self' !! user_id = Some pk
  /\ size (users self') = size (users self)
  /\ fst (add_user self' pk') = user_id.
Proof.
  intros Htaken. cbv zeta. cbn.
  rewrite (map_size_insert_Some _ pk _ (ex_intro _ old Htaken)).
  split; [apply lookup_insert_eq | split; reflexivity].
Qed.

Lemma add_user_taken_id_witness :
  let self := {| users := {[1 := "first"]} |} in
  users (snd (add_user self "second")) !! fst (add_user self "second") = Some "second"
  /\ size (users (snd (add_user self "second"))) = size (users self)
  /\ fst (add_user (snd (add_user self "second")) "third") = fst (add_user self "second").
Proof.
  apply (add_user_taken_id {| users := {[1 := "first"]} |} "first" "second" "third").
  vm_compute. reflexivity.
Defined.

(** X13. From any dense table, successive [add_user] calls return the next
    free ids in order, never touch an entry that was there before, store
    each key under the id returned for it, and leave the table dense. *)
Theorem add_users_dense {pubkey : Type} (self : AccountsJSONRPCServer pubkey)
    (pks : list pubkey) :
  dense self ->
  let n := size (users self) in
  let self' := snd (add_users self pks) in
  fst (add_users self pks) = seq n (length pks)
  /\ (forall i : nat, i < n -> users self' !! i = users self !! i)
  /\ (forall (j : nat) (pk : pubkey), pks !! j = Some pk -> users self' !! (n + j) = Some pk)
  /\ dense self'.
Proof.
  cbv zeta. revert self.
  induction pks as [|pk pks IH]; intros self Hdense.
  - cbn. split; [reflexivity|]. split; [reflexivity|]. split; [|exact Hdense].
    intros j pk' Hj. discriminate Hj.
  - pose proof (dense_next_free self Hdense) as Hfree.
    pose proof (add_user_dense self pk Hdense) as Hdense'.
    destruct (IH (snd (add_user self pk)) Hdense') as (Hids & Hold & Hnew & Hd).
    assert (Husers : users (snd (add_user self pk))
                     = <[size (users self) := pk]> (users self)) by reflexivity.
    assert (Hsize : size (users (snd (add_user self pk))) = Datatypes.S (size (users self))).
    { rewrite Husers. now apply map_size_insert_None. }
    assert (Hstep : add_users self (pk :: pks)
                    = (size (users self) :: fst (add_users (snd (add_user self pk)) pks),
                       snd (add_users (snd (add_user self pk)) pks))).
    { cbn. now destruct (add_users _ pks). }
    rewrite Hstep, Hsize in *. cbn [fst snd length seq].
    split; [now rewrite Hids|]. split; [|split; [|exact Hd]].
    + intros i Hi. rewrite Hold by lia. rewrite Husers. apply lookup_insert_ne. lia.
    + intros [|j] pk' Hj.
      * cbn in Hj. injection Hj as <-. rewrite Nat.add_0_r, Hold by lia.
        rewrite Husers. apply lookup_insert_eq.
      * cbn in Hj. rewrite <- (Hnew j pk' Hj). f_equal. lia.
Qed.

Lemma add_users_dense_witness :
  fst (add_users (snd (add_user AccountsJSONRPCServer_init "pubkey1")) ["pubkey2"; "pubkey3"])
  = [1; 2].
Proof.
  apply (add_users_dense (snd (add_user AccountsJSONRPCServer_init "pubkey1"))
           ["pubkey2"; "pubkey3"]).
  apply add_user_dense, dense_init.
Defined.

(** ** A header built as the grammar has it *)

(** A check that holds of 0, ..., k-1 holds below k. *)
Lemma N_forall_lt (P : N -> bool) (k : nat) :
  forallb P (map N.of_nat (seq 0 k)) = true ->
  forall n : N, (n < N.of_nat k)%N -> P n = true.
Proof.
  intros Hall n Hn. rewrite forallb_forall in Hall. apply Hall.
  apply in_map_iff. exists (N.to_nat n). split; [apply N2Nat.id|].
  apply in_seq. lia.
Qed.

Lemma byte_lt_256 (a : byte) : (Byte.to_N a < N.of_nat 256)%N.
Proof. pose proof (Byte.to_N_bounded a). lia. Qed.

Lemma byte_of_to_N (a : byte) : base64.byte_of_N (Byte.to_N a) = a.
Proof. now destruct a. Qed.

Lemma list_ind3 {A : Type} (P : list A -> Prop) :
  P [] -> (forall a, P [a]) -> (forall a b, P [a; b]) ->
  (forall a b c l, P l -> P (a :: b :: c :: l)) ->
  forall l, P l.
Proof.
  intros H0 H1 H2 H3.
  refine (fix IH (l : list A) : P l :=
            match l with
            | [] => H0
            | [a] => H1 a
            | [a; b] => H2 a b
            | a :: b :: c :: l' => H3 a b c l' (IH l')
            end).
Qed.

(** A character of the alphabet is no pad and decodes to its index. *)
Lemma b2a_spec (n : N) :
  (n < 64)%N ->
  (Byte.to_N (base64.b2a n) =? 61)%N = false
  /\ base64.table_a2b_base64 (base64.b2a n) = n.
Proof.
  intros Hn.
  pose proof (N_forall_lt
    (fun n => negb (Byte.to_N (base64.b2a n) =? 61)%N
              && (base64.table_a2b_base64 (base64.b2a n) =? n)%N)
    64 ltac:(vm_compute; reflexivity) n Hn) as Hcheck.
  apply andb_true_iff in Hcheck as [Hpad Htable].
  split; [now apply negb_true_iff | now apply N.eqb_eq].
Qed.

(** One step of the decoding loop on a character of the alphabet. *)
Lemma loop_data (n : N) (rest : bytes) (quad_pos : nat) (leftchar : N) (pads : nat)
    (out : bytes) :
  (n < 64)%N ->
  base64.a2b_base64_loop (base64.b2a n :: rest) quad_pos leftchar pads out
  = match quad_pos with
    | 0 => base64.a2b_base64_loop rest 1 n 0 out
    | 1 => base64.a2b_base64_loop rest 2 (N.land n 15) 0
             (out ++ [base64.byte_of_N (N.lor (N.shiftl leftchar 2) (N.shiftr n 4))])
    | 2 => base64.a2b_base64_loop rest 3 (N.land n 3) 0
             (out ++ [base64.byte_of_N (N.lor (N.shiftl leftchar 4) (N.shiftr n 2))])
    | _ => base64.a2b_base64_loop rest 0 0%N 0
             (out ++ [base64.byte_of_N (N.lor (N.shiftl leftchar 6) n)])
    end.
Proof.
  intros Hn. destruct (b2a_spec n Hn) as [Hpad Htable].
  cbn [base64.a2b_base64_loop]. rewrite Hpad, Htable.
  now replace (64 <=? n)%N with false by (symmetry; apply N.leb_gt; exact Hn).
Qed.

Lemma quad_check_bytes (a b : byte) : quad_check (Byte.to_N a) (Byte.to_N b) = true.
Proof.
  pose proof (N_forall_lt
    (fun x => forallb (quad_check x) (map N.of_nat (seq 0 256)))
    256 ltac:(vm_compute; reflexivity) (Byte.to_N a) (byte_lt_256 a)) as Hrow.
  exact (N_forall_lt (quad_check (Byte.to_N a)) 256 Hrow (Byte.to_N b) (byte_lt_256 b)).
Qed.

(** The same facts, unpacked. *)
Lemma quad_facts (a b : byte) :
  let x := Byte.to_N a in
  let y := Byte.to_N b in
  let d2 := N.lor (N.shiftl (N.land x 3) 4) (N.shiftr y 4) in
  let d3 := N.lor (N.shiftl (N.land x 15) 2) (N.shiftr y 6) in
  ((N.shiftr x 2 < 64)%N /\ (d2 < 64)%N /\ (d3 < 64)%N /\ (N.land x 63 < 64)%N
   /\ (N.shiftl (N.land x 3) 4 < 64)%N /\ (N.shiftl (N.land x 15) 2 < 64)%N)
  /\ N.lor (N.shiftl (N.shiftr x 2) 2) (N.shiftr d2 4) = x
  /\ N.land d2 15 = N.shiftr y 4
  /\ N.lor (N.shiftl (N.shiftr x 2) 2) (N.shiftr (N.shiftl (N.land x 3) 4) 4) = x
  /\ N.lor (N.shiftl (N.shiftr x 4) 4) (N.shiftr d3 2) = x
  /\ N.land d3 3 = N.shiftr y 6
  /\ N.lor (N.shiftl (N.shiftr x 4) 4) (N.shiftr (N.shiftl (N.land x 15) 2) 2) = x
  /\ N.lor (N.shiftl (N.shiftr x 6) 6) (N.land x 63) = x.
Proof.
  cbv zeta. pose proof (quad_check_bytes a b) as Hcheck.
  unfold quad_check in Hcheck. cbn [forallb] in Hcheck.
  repeat (apply andb_true_iff in Hcheck as [?H Hcheck]).
  repeat match goal with
         | H : (_ <? _)%N = true |- _ => apply N.ltb_lt in H
         | H : (_ =? _)%N = true |- _ => apply N.eqb_eq in H
         end.
  repeat split; assumption.
Qed.

(** Four characters decode to the three bytes they encode. *)
Lemma loop_quad (a b c : byte) (rest : bytes) (leftchar : N) (pads : nat) (out : bytes) :
  base64.a2b_base64_loop (base64.b64encode [a; b; c] ++ rest) 0 leftchar pads out
  = base64.a2b_base64_loop rest 0 0%N 0 (out ++ [a; b; c]).
Proof.
  destruct (quad_facts a b) as ((Ha1 & Ha2 & _) & HA & HL2 & _).
  destruct (quad_facts b c) as ((_ & _ & Hb3 & _) & _ & _ & _ & HB & HL3 & _).
  destruct (quad_facts c c) as ((_ & _ & _ & Hc4 & _) & _ & _ & _ & _ & _ & _ & HC).
  cbv zeta in *. cbn [base64.b64encode app].
  rewrite (loop_data _ _ 0 _ _ _ Ha1), (loop_data _ _ 1 _ _ _ Ha2).
  rewrite HA, HL2, byte_of_to_N.
  rewrite (loop_data _ _ 2 _ _ _ Hb3), HB, HL3, byte_of_to_N.
  rewrite (loop_data _ _ 3 _ _ _ Hc4), HC, byte_of_to_N.
  now rewrite <- !app_assoc.
Qed.

Lemma loop_b64encode (s : bytes) :
  forall (leftchar : N) (pads : nat) (out : bytes),
    base64.a2b_base64_loop (base64.b64encode s) 0 leftchar pads out = inr (out ++ s).
Proof.
  induction s as [|a|a b|a b c s IH] using list_ind3; intros leftchar pads out.
  - cbn. now rewrite app_nil_r.
  - destruct (quad_facts a a) as ((Ha1 & _ & _ & _ & Ha2 & _) & _ & _ & HA' & _).
    cbv zeta in *. cbn [base64.b64encode].
    rewrite (loop_data _ _ 0 _ _ _ Ha1), (loop_data _ _ 1 _ _ _ Ha2).
    rewrite HA', byte_of_to_N. reflexivity.
  - destruct (quad_facts a b) as ((Ha1 & Ha2 & _) & HA & HL2 & _).
    destruct (quad_facts b b) as ((_ & _ & _ & _ & _ & Hb3) & _ & _ & _ & _ & _ & HB' & _).
    cbv zeta in *. cbn [base64.b64encode].
    rewrite (loop_data _ _ 0 _ _ _ Ha1), (loop_data _ _ 1 _ _ _ Ha2).
    rewrite HA, HL2, byte_of_to_N.
    rewrite (loop_data _ _ 2 _ _ _ Hb3), HB', byte_of_to_N.
    cbn. now rewrite <- app_assoc.
  - change (base64.b64encode (a :: b :: c :: s))
      with (base64.b64encode [a; b; c] ++ base64.b64encode s).
    rewrite loop_quad, IH. now rewrite <- app_assoc.
Qed.

(** Decoding undoes encoding. *)
Lemma b64decode_b64encode (s : bytes) :
  base64.b64decode (base64.b64encode s) = inr s.
Proof. unfold base64.b64decode. now rewrite loop_b64encode. Qed.

Lemma decodes_to_basic_auth (headers : HTTPMessage.t) (credentials : str) :
  utf8_valid (map Byte.to_N (list_byte_of_string credentials)) = true ->
  HTTPMessage.get headers "Authorization" = Some (basic_auth credentials) ->
  decodes_to headers credentials.
Proof.
  intros Hutf8 Hget.
  exists (basic_auth credentials), " ",
    (string_of_list_byte (base64.b64encode (list_byte_of_string credentials))),
    (base64.b64encode (list_byte_of_string credentials)),
    (list_byte_of_string credentials).
  split; [exact Hget|]. split; [reflexivity|]. split; [|split].
  - cbn. now rewrite list_byte_of_string_of_list_byte.
  - apply b64decode_b64encode.
  - cbn. now rewrite Hutf8, string_of_list_byte_of_string.
Qed.

(** X14. A client that follows the header grammar: for a user name without
    colon and a password (texts in UTF-8), the header
    [Basic base64(username:password)] is let through by a server with a
    non-empty expected password exactly when both equal the expected ones,
    and is otherwise rejected with [RPCAuthCredentialsInvalid], never with
    another error. *)
Theorem grammar_header_outcome (self : PasswordProtectedJSONRPCServer)
    (headers : HTTPMessage.t) (username password : str) :
  rpc_password self <> "" ->
  occurs ":" username = false ->
  utf8_valid (map Byte.to_N (list_byte_of_string (username +:+ ":" +:+ password))) = true ->
  HTTPMessage.get headers "Authorization"
    = Some (basic_auth (username +:+ ":" +:+ password)) ->
  snd (authenticate self headers)
  = if String.eqb username (rpc_user self) && String.eqb password (rpc_password self)
    then inr tt else inl RPCAuthCredentialsInvalid.
Proof.
  intros Hpw Hocc Hutf8 Hget.
  pose proof (decodes_to_basic_auth headers _ Hutf8 Hget) as Hdec.
  destruct (split_first_partition ":" _ username password
              (split_at _ _ _ _ eq_refl Hocc)) as [found Hcred].
  exact (decoded_outcome self headers _ username found password Hpw Hdec Hcred).
Qed.

Lemma grammar_header_outcome_witness :
  snd (authenticate alice [("Authorization", basic_auth "alice:se:cret")])
  = inl RPCAuthCredentialsInvalid
  /\ snd (authenticate {| rpc_user := "alice"; rpc_password := "se:cret" |}
            [("Authorization", basic_auth "alice:se:cret")])
     = inr tt.
Proof.
  split.
  - apply (grammar_header_outcome alice
             [("Authorization", basic_auth "alice:se:cret")] "alice" "se:cret");
      [discriminate | reflexivity | reflexivity | reflexivity].
  - apply (grammar_header_outcome {| rpc_user := "alice"; rpc_password := "se:cret" |}
             [("Authorization", basic_auth "alice:se:cret")] "alice" "se:cret");
      [discriminate | reflexivity | reflexivity | reflexivity].
Defined.
